(** * Nearest-centroid pizza classifier: a shallow embedding of the pipeline

    The development follows the four scripts of the repository:
    - [01_train_test_split.py]   ([Module Split]),
    - [03_calculating_centroid.py] ([Module Centroid]),
    - [04_evaluate_distance.py]  ([Module Evaluate]),
    on top of a small model of the numpy operations they call
    ([Module Numpy]) and of Python's exceptions ([result]).  The definitions
    come first; the lemmas and the properties of the specification, each
    marked with the identifier of its claim, follow them.

    Numbers.  A [uint8] array is a list of integers with the wrap-around of
    its arithmetic written out; a [float64] array is a list of real numbers:
    binary64 rounding, infinities and NaN are not part of the model, so every
    statement about a [float64] value is a statement about the real number
    it approximates. *)

From Stdlib Require Import Reals Lra ZArith Lia.
From stdpp Require Import gmap strings list fin_maps pretty.

(** ** Python exceptions *)

Inductive exn : Set :=
| ValueError          (* shapes that do not broadcast, [min] of an empty sequence *)
| IndexError          (* list index out of range *)
| KeyError            (* missing dictionary key *)
| ZeroDivisionError   (* [/] on Python numbers with a zero divisor *)
| FileNotFoundError   (* a path that does not exist *)
| FloatDivideByZero.  (* numpy division by 0.0: inf or nan under a RuntimeWarning *)

Inductive result (A : Type) : Type :=
| Ok (a : A)
| Raise (e : exn).
Arguments Ok {A} a.
Arguments Raise {A} e.

#[global] Instance result_ret : MRet result := λ A a, Ok a.
#[global] Instance result_bind : MBind result := λ A B f m,
  match m with Ok a => f a | Raise e => Raise e end.
#[global] Instance result_fmap : FMap result := λ A B f m,
  match m with Ok a => Ok (f a) | Raise e => Raise e end.

Definition is_ok {A} (m : result A) : Prop := ∃ a, m = Ok a.

(** [d[k]] on a dictionary. *)
Definition getitem `{Lookup K V M} (d : M) (k : K) : result V :=
  match d !! k with Some v => Ok v | None => Raise KeyError end.

(** [for a in l: s = body(a, s)], stopping at the first exception. *)
Fixpoint for_in {A S} (l : list A) (body : A → S → result S) (s : S) : result S :=
  match l with
  | [] => Ok s
  | a :: l' => s' ← body a s; for_in l' body s'
  end.

(** A loop whose body may raise: the state reached is kept. *)
Fixpoint for_each {A S} (body : S → A → S * option exn) (s : S) (l : list A)
    : S * option exn :=
  match l with
  | [] => (s, None)
  | a :: l' =>
    match body s a with
    | (s', None) => for_each body s' l'
    | (s', Some e) => (s', Some e)
    end
  end.

(** ** Strings and paths *)

Definition newline : string := String (Ascii.ascii_of_nat 10) "".

Definition os_path_join (a b : string) : string := a +:+ "/" +:+ b.

Definition ascii_lower (c : Ascii.ascii) : Ascii.ascii :=
  let n := Ascii.nat_of_ascii c in
  if bool_decide (65 ≤ n ≤ 90) then Ascii.ascii_of_nat (n + 32) else c.

(** [s.lower()], on the ASCII letters. *)
Fixpoint lower (s : string) : string :=
  match s with
  | EmptyString => EmptyString
  | String c s' => String (ascii_lower c) (lower s')
  end.

(** [s.endswith(suffix)] *)
Definition endswith (s suffix : string) : bool :=
  let n := String.length s in
  let k := String.length suffix in
  bool_decide (k ≤ n) && bool_decide (String.substring (n - k) k s = suffix).

(** [s.endswith((suffix1, suffix2, ...))] *)
Definition endswith_any (s : string) (suffixes : list string) : bool :=
  existsb (endswith s) suffixes.

(** Comparisons of real numbers are decided classically. *)
#[global] Instance R_eq_dec : EqDecision R := Req_dec_T.
#[global] Instance R_lt_dec : RelDecision Rlt := Rlt_dec.

(** ** The numpy operations used by the scripts *)

Module Numpy.

(** A one-dimensional array with its dtype.  Test vectors come out of
    [np.array(img).flatten()] and are [uint8]; centroids come out of
    [np.mean] and are [float64].  A [uint8] array holds values of
    [0, 255]. *)
Inductive ndarray : Type :=
| U8 (l : list Z)
| F64 (l : list R).

Definition len (a : ndarray) : nat :=
  match a with U8 l => length l | F64 l => length l end.


(** [x.astype(float)] *)
Definition astype_float (a : ndarray) : list R :=
  match a with U8 l => IZR <$> l | F64 l => l end.

Definition wrap8 (z : Z) : Z := z mod 256.
Definition wrap64 (z : Z) : Z := z mod 2 ^ 64.

(** Broadcasting of two one-dimensional operands: equal lengths, or one of
    them of length one; anything else is a [ValueError]. *)
Definition broadcast {A B} (f : A → A → B) (l1 l2 : list A) : result (list B) :=
  if decide (length l1 = length l2) then Ok (zip_with f l1 l2)
  else match l1, l2 with
       | [a], _ => Ok (f a <$> l2)
       | _, [b] => Ok ((λ a, f a b) <$> l1)
       | _, _ => Raise ValueError
       end.

(** [v1 - v2]: two [uint8] operands stay [uint8] and wrap; as soon as one
    operand is [float64] the other one is promoted. *)
Definition np_subtract (a b : ndarray) : result ndarray :=
  match a, b with
  | U8 l1, U8 l2 => U8 <$> broadcast (λ x y, wrap8 (x - y)) l1 l2
  | _, _ => F64 <$> broadcast Rminus (astype_float a) (astype_float b)
  end.

(** [a ** 2], in the dtype of [a]. *)
Definition np_square (a : ndarray) : ndarray :=
  match a with
  | U8 l => U8 ((λ x, wrap8 (x * x)) <$> l)
  | F64 l => F64 ((λ x, x * x)%R <$> l)
  end.

(** [np.abs(a)]: the identity on an unsigned dtype. *)
Definition np_abs (a : ndarray) : ndarray :=
  match a with
  | U8 l => U8 l
  | F64 l => F64 (Rabs <$> l)
  end.

Definition Zsum (l : list Z) : Z := foldr Z.add 0%Z l.
Definition Rsum (l : list R) : R := foldr Rplus 0%R l.

(** [np.sum(a)]: a [uint8] array is accumulated in [uint64]. The value of
    the resulting scalar is returned. *)
Definition np_sum (a : ndarray) : R :=
  match a with
  | U8 l => IZR (wrap64 (Zsum l))
  | F64 l => Rsum l
  end.

(** [np.dot(a, b)] on one-dimensional operands: the lengths must agree;
    two [uint8] operands give a [uint8] scalar. *)
Definition np_dot (a b : ndarray) : result R :=
  if decide (len a = len b) then
    match a, b with
    | U8 l1, U8 l2 => Ok (IZR (wrap8 (Zsum (zip_with Z.mul l1 l2))))
    | _, _ => Ok (Rsum (zip_with Rmult (astype_float a) (astype_float b)))
    end
  else Raise ValueError.

(** [np.linalg.norm(x)]: an integer array is first converted with
    [astype(float)], then [sqrt(x.dot(x))]. *)
Definition np_linalg_norm (a : ndarray) : R :=
  let x := astype_float a in sqrt (Rsum (zip_with Rmult x x)).

(** Division of numpy scalars. *)
Definition np_true_divide (a b : R) : result R :=
  if decide (b = 0%R) then Raise FloatDivideByZero else Ok (a / b)%R.

End Numpy.

(** ** [04_evaluate_distance.py]: the distance functions *)

Module Distance.
Import Numpy.
Local Open Scope R_scope.

(** [np.sqrt(np.sum((v1 - v2) ** 2))] *)
Definition d_euclidean (v1 v2 : ndarray) : result R :=
  d ← np_subtract v1 v2; mret (sqrt (np_sum (np_square d))).

(** [np.sum(np.abs(v1 - v2))] *)
Definition d_manhattan (v1 v2 : ndarray) : result R :=
  d ← np_subtract v1 v2; mret (np_sum (np_abs d)).

Definition d_cosine (v1 v2 : ndarray) : result R :=
  dot_product ← np_dot v1 v2;
  let norm_v1 := np_linalg_norm v1 in
  let norm_v2 := np_linalg_norm v2 in
  if bool_decide (norm_v1 = 0%R) || bool_decide (norm_v2 = 0%R) then mret 1%R
  else
    similarity ← np_true_divide dot_product (norm_v1 * norm_v2);
    mret (1 - similarity)%R.


End Distance.

(** ** [03_calculating_centroid.py] *)

Module Centroid.
Import Numpy.

Definition INPUT_DIR : string := "processed_data/train".
Definition OUTPUT_DIR : string := "centroids".
Definition CLASSES : list string := ["pizza_slice"; "whole_pizza"; "pizza_box"].
Definition TARGET_SIZE : nat * nat := (32, 32).

(** The class matrix [X_k] as [02_process_all_data.py] stacks it: a
    two-dimensional [uint8] array of shape [(length rows, ncols)]. *)
Record matrix : Type := Matrix { ncols : nat; rows : list (list Z) }.

Definition wf_matrix (m : matrix) : Prop :=
  Forall (λ r, length r = ncols m) (rows m).

(** [np.mean(matrix_X, axis=0)]: the rows are added up in [float64] and the
    total is divided by their number.  Without rows numpy divides 0.0 by 0
    and returns nan under a RuntimeWarning; the model, which has no nan,
    stops there with [FloatDivideByZero]. *)
Definition np_mean_axis0 (m : matrix) : result (list R) :=
  let n := length (rows m) in
  let total := foldl (zip_with Rplus) (replicate (ncols m) 0%R)
                     (map (map IZR) (rows m)) in
  if decide (n = 0) then Raise FloatDivideByZero
  else Ok ((λ s, s / INR n)%R <$> total).

(** The arithmetic mean of the [i]-th components of the rows. *)
Definition column (m : matrix) (i : nat) : list R :=
  (λ r, IZR (nth i r 0%Z)) <$> rows m.
Definition column_mean (m : matrix) (i : nat) : R :=
  (Rsum (column m i) / INR (length (rows m)))%R.

(** [x.astype(np.uint8)] on a float: truncation, then wrap-around. *)
Definition astype_uint8 (x : R) : Z :=
  wrap8 (if decide (0 <= x)%R then Int_part x else - Int_part (- x)).

Definition matrix_path (class_name : string) : string :=
  os_path_join INPUT_DIR ("Matrix_" +:+ class_name +:+ ".npy").
Definition centroid_path (class_name : string) : string :=
  os_path_join OUTPUT_DIR ("Centroid_" +:+ class_name +:+ ".npy").
Definition visual_path (class_name : string) : string :=
  os_path_join OUTPUT_DIR ("Visual_" +:+ class_name +:+ ".png").

(** What the script has written and printed so far: the saved centroid
    vectors, the pixel tensors of the preview images (before the enlargement
    to 256x256), and the printed lines. *)
Record state : Type := State {
  centroids : gmap string ndarray;
  visuals : gmap string (list Z);
  out : list string
}.

Definition print (line : string) (st : state) : state :=
  State (centroids st) (visuals st) (out st ++ [line]).

(** The body of [for class_name in CLASSES].  The centroid is saved before
    the reshape to [(32, 32, 3)], which raises [ValueError] for a vector
    that does not have 3072 components. *)
Definition centroid_step (mats : gmap string matrix) (st : state)
    (class_name : string) : state * option exn :=
  match mats !! matrix_path class_name with
  | None => (print ("[Error] Matrix not found for " +:+ class_name) st, None)
  | Some matrix_X =>
    match np_mean_axis0 matrix_X with
    | Raise e => (st, Some e)
    | Ok centroid_vector =>
      let st := State (<[centroid_path class_name := F64 centroid_vector]> (centroids st))
                      (visuals st) (out st) in
      if decide (length centroid_vector = TARGET_SIZE.1 * TARGET_SIZE.2 * 3) then
        let centroid_tensor := astype_uint8 <$> centroid_vector in
        let st := State (centroids st)
                        (<[visual_path class_name := centroid_tensor]> (visuals st))
                        (out st) in
        (print ("  -> Saved Visual Representation: Visual_" +:+ class_name +:+ ".png")
          (print ("  -> Calculated Mean Vector: (" +:+ pretty (length centroid_vector) +:+ ",)")
            (print (newline +:+ "Class: " +:+ class_name) st)), None)
      else (st, Some ValueError)
    end
  end.

Definition calculate_and_visualize_centroids (mats : gmap string matrix)
    (st : state) : state * option exn :=
  for_each (centroid_step mats)
    (print "--- Calculating Centroids (Mean Vectors) ---" st) CLASSES.

End Centroid.

(** ** [04_evaluate_distance.py]: the evaluation run *)

Module Evaluate.
Import Numpy Distance.

Definition TEST_DIR : string := "processed_data/test".
Definition CENTROID_DIR : string := "centroids".
Definition CLASSES : list string := ["pizza_slice"; "whole_pizza"; "pizza_box"].
Definition METRICS : list string := ["Euclidean"; "Manhattan"; "Cosine"].

(** A dictionary whose iteration order matters: the items in insertion
    order, every key once. *)
Definition odict (V : Type) : Type := list (string * V).

Fixpoint odict_set {V} (k : string) (v : V) (d : odict V) : odict V :=
  match d with
  | [] => [(k, v)]
  | (k', v') :: d' => if decide (k' = k) then (k, v) :: d' else (k', v') :: odict_set k v d'
  end.

Fixpoint odict_get {V} (d : odict V) (k : string) : option V :=
  match d with
  | [] => None
  | (k', v') :: d' => if decide (k' = k) then Some v' else odict_get d' k
  end.

#[global] Instance odict_lookup {V} : Lookup string V (odict V) := λ k d, odict_get d k.

(** [min(items, key=key)]: the first item is the candidate, and a later item
    replaces it only when its key is strictly smaller. *)
Definition py_min {A} (key : A → R) (items : list A) : result A :=
  match items with
  | [] => Raise ValueError
  | x :: rest => Ok (foldl (λ best y, if decide (key y < key best)%R then y else best) x rest)
  end.

(** [min(d, key=d.get)]: the keys are visited in insertion order and each
    is compared through its own value. *)
Definition argmin (d : odict R) : result string := fst <$> py_min snd d.

(** [round(x, ndigits)] of a numpy float: scale, round half to even,
    scale back. *)
Definition rint (x : R) : Z :=
  let f := Int_part x in
  let d := frac_part x in
  if decide (d < 1 / 2)%R then f
  else if decide (1 / 2 < d)%R then (f + 1)%Z
  else if Z.even f then f else (f + 1)%Z.

Definition py_round (x : R) (ndigits : nat) : R :=
  (IZR (rint (x * 10 ^ ndigits)) / 10 ^ ndigits)%R.

(** The files the run reads. A directory entry is an array saved by
    [np.save] or something else (the [.csv] twin of a vector). *)
Inductive file : Type :=
| Npy (a : ndarray)
| Other.

Definition np_load (f : file) : result ndarray :=
  match f with Npy a => Ok a | Other => Raise ValueError end.

Record env : Type := Env {
  (** the [.npy] files of [CENTROID_DIR], by path *)
  centroid_files : gmap string ndarray;
  (** the directories under [TEST_DIR], by path: the entries in the order
      [os.listdir] yields them *)
  test_dirs : gmap string (list (string * file))
}.

Definition centroid_path (c : string) : string :=
  os_path_join CENTROID_DIR ("Centroid_" +:+ c +:+ ".npy").

(** One line of [detailed_predictions.csv]. *)
Record row : Type := Row {
  Image : string;
  True_Class : string;
  Pred_E : string;
  Pred_M : string;
  Pred_C : string;
  Dist_E_Slice : R;
  Dist_E_Whole : R;
  Dist_E_Box : R;
  Dist_C_Slice : R;
  Dist_C_Whole : R;
  Dist_C_Box : R
}.

(** The accumulators of the run. *)
Record state : Type := State {
  results : list row;
  confusion_matrices : gmap string (gmap string (gmap string nat));
  correct_counts : gmap string nat;
  total_images : nat
}.

Definition zero_row : gmap string nat := list_to_map ((λ p, (p, 0)) <$> CLASSES).
Definition zero_matrix : gmap string (gmap string nat) :=
  list_to_map ((λ t, (t, zero_row)) <$> CLASSES).

Definition initial_state : state :=
  State []
    (list_to_map ((λ m, (m, zero_matrix)) <$> METRICS))
    (list_to_map ((λ m, (m, 0)) <$> METRICS))
    0.

(** Step 2: loading the centroids. [inl c]: the centroid of [c] is missing,
    the error line is printed and the function returns. *)
Fixpoint load_centroids (e : env) (cs : list string) (centroids : gmap string ndarray)
    : string + gmap string ndarray :=
  match cs with
  | [] => inr centroids
  | c :: cs' =>
    match centroid_files e !! centroid_path c with
    | Some a => load_centroids e cs' (<[c := a]> centroids)
    | None => inl c
    end
  end.

(** The body of [for k in CLASSES]: the three distances to [mu_k]. *)
Definition compare_step (centroids : gmap string ndarray) (x : ndarray) (k : string)
    (dists : gmap string (odict R)) : result (gmap string (odict R)) :=
  mu_k ← getitem centroids k;
  e ← d_euclidean x mu_k;
  de ← getitem dists "Euclidean";
  let dists := <["Euclidean" := odict_set k e de]> dists in
  m ← d_manhattan x mu_k;
  dm ← getitem dists "Manhattan";
  let dists := <["Manhattan" := odict_set k m dm]> dists in
  c ← d_cosine x mu_k;
  dc ← getitem dists "Cosine";
  mret (<["Cosine" := odict_set k c dc]> dists).

Definition empty_dists : gmap string (odict R) :=
  {["Euclidean" := []; "Manhattan" := []; "Cosine" := []]}.

(** The body of [for metric in ['Euclidean', 'Manhattan', 'Cosine']]. *)
Definition decide_step (true_class : string) (dists : gmap string (odict R))
    (metric : string) (acc : gmap string string * state)
    : result (gmap string string * state) :=
  let '(preds, st) := acc in
  d ← getitem dists metric;
  p ← argmin d;
  let preds := <[metric := p]> preds in
  correct_counts ←
    (if decide (p = true_class) then
       n ← getitem (correct_counts st) metric;
       mret (<[metric := n + 1]> (correct_counts st))
     else mret (correct_counts st));
  cm ← getitem (confusion_matrices st) metric;
  cm_t ← getitem cm true_class;
  n ← getitem cm_t p;
  let confusion_matrices :=
    <[metric := <[true_class := <[p := n + 1]> cm_t]> cm]> (confusion_matrices st) in
  mret (preds, State (results st) confusion_matrices correct_counts (total_images st)).

(** The body of [for filename in files]. *)
Definition process_file (centroids : gmap string ndarray) (true_class : string)
    (entry : string * file) (st : state) : result state :=
  let '(filename, f) := entry in
  let st := State (results st) (confusion_matrices st) (correct_counts st)
                  (total_images st + 1) in
  x ← np_load f;
  dists ← for_in CLASSES (compare_step centroids x) empty_dists;
  '(preds, st) ← for_in METRICS (decide_step true_class dists) (∅, st);
  pred_e ← getitem preds "Euclidean";
  pred_m ← getitem preds "Manhattan";
  pred_c ← getitem preds "Cosine";
  de ← getitem dists "Euclidean";
  dc ← getitem dists "Cosine";
  de_slice ← getitem de "pizza_slice";
  de_whole ← getitem de "whole_pizza";
  de_box ← getitem de "pizza_box";
  dc_slice ← getitem dc "pizza_slice";
  dc_whole ← getitem dc "whole_pizza";
  dc_box ← getitem dc "pizza_box";
  let r := Row filename true_class pred_e pred_m pred_c
               (py_round de_slice 2) (py_round de_whole 2) (py_round de_box 2)
               (py_round dc_slice 4) (py_round dc_whole 4) (py_round dc_box 4) in
  mret (State (results st ++ [r]) (confusion_matrices st) (correct_counts st)
              (total_images st)).

(** [[f for f in os.listdir(class_dir) if f.endswith('.npy')]], each name
    with the file it denotes. *)
Definition npy_entries (entries : list (string * file)) : list (string * file) :=
  filter (λ entry, endswith entry.1 ".npy" = true) entries.

(** The body of [for true_class in CLASSES]. *)
Definition class_step (e : env) (centroids : gmap string ndarray) (true_class : string)
    (st : state) : result state :=
  let class_dir := os_path_join TEST_DIR true_class in
  match test_dirs e !! class_dir with
  | None => Ok st
  | Some entries => for_in (npy_entries entries) (process_file centroids true_class) st
  end.

Definition evaluation_loop (e : env) (centroids : gmap string ndarray) : result state :=
  for_in CLASSES (class_step e centroids) initial_state.

(** [results[0]] *)
Definition first_result (rs : list row) : result row :=
  match rs with [] => Raise IndexError | r :: _ => Ok r end.

(** [a / b] on Python integers. *)
Definition py_truediv (a b : nat) : result R :=
  if decide (b = 0) then Raise ZeroDivisionError else Ok (INR a / INR b)%R.

(** What step 5 writes. *)
Record report : Type := Report {
  (** [detailed_predictions.csv] *)
  detailed_predictions : list row;
  (** [confusion_matrix_<metric>.csv], without the header: one line per
      true class, the counts in the order of [CLASSES] *)
  confusion_tables : list (string * list (string * list nat));
  (** [accuracy_summary.txt]: the total, then per metric the accuracy in
      percent and the number of correct predictions *)
  summary_total : nat;
  summary : list (string * R * nat)
}.

Definition confusion_line (cm : gmap string (gmap string nat)) (t_class : string)
    : result (string * list nat) :=
  cm_t ← getitem cm t_class;
  counts ← mapM (getitem cm_t) CLASSES;
  mret (t_class, counts).

Definition confusion_table (st : state) (metric : string)
    : result (string * list (string * list nat)) :=
  cm ← getitem (confusion_matrices st) metric;
  lines ← mapM (confusion_line cm) CLASSES;
  mret (metric, lines).

Definition summary_line (st : state) (metric : string) : result (string * R * nat) :=
  n ← getitem (correct_counts st) metric;
  q ← py_truediv n (total_images st);
  let acc := (q * 100)%R in
  mret (metric, acc, n).

Definition save_files (st : state) : result report :=
  _ ← first_result (results st);
  tables ← mapM (confusion_table st) METRICS;
  lines ← mapM (summary_line st) METRICS;
  mret (Report (results st) tables (total_images st) lines).

Inductive outcome : Type :=
| Finished (rep : report)
| MissingCentroid (c : string)   (* "[Error] Missing centroid for c. Run Step 3 first." *)
| Uncaught (e : exn).

Definition run_evaluation (e : env) : outcome :=
  match load_centroids e CLASSES ∅ with
  | inl c => MissingCentroid c
  | inr centroids =>
    match st ← evaluation_loop e centroids; save_files st with
    | Ok rep => Finished rep
    | Raise ex => Uncaught ex
    end
  end.

End Evaluate.

(** ** [01_train_test_split.py] *)

Module Split.

Definition TEST_DIR : string := "dataset_test".
Definition SPLIT_COUNT : nat := 5.
Definition CLASSES : list string := ["pizza_slice"; "whole_pizza"; "pizza_box"].

(** The file system: the directories by path, each with its regular files
    by name. *)
Definition content : Type := list Byte.byte.
Abbreviation filesystem := (gmap string (gmap string content)).



(** [os.listdir(path)] of an existing directory. *)
Definition os_listdir (dir : gmap string content) : list string :=
  (map_to_list dir).*1.


(** The generator behind [random]: the raw draws still to come. *)
Definition rng : Type := list nat.

(** [randbelow(n)] *)
Definition randbelow (n : nat) (g : rng) : nat * rng :=
  match g with
  | [] => (0, [])
  | r :: g' => (r `mod` n, g')
  end.

(** [x[i], x[j] = x[j], x[i]] *)
Definition swap {A} (i j : nat) (x : list A) : list A :=
  match x !! i, x !! j with
  | Some xi, Some xj => <[j := xi]> (<[i := xj]> x)
  | _, _ => x
  end.

(** [for i in reversed(range(1, len(x))): j = randbelow(i + 1); swap]:
    [shuffle_from n] runs the iterations [i = n, ..., 1]. *)
Fixpoint shuffle_from {A} (n : nat) (x : list A) (g : rng) : list A * rng :=
  match n with
  | 0 => (x, g)
  | S n' =>
    let '(j, g) := randbelow (n + 1) g in
    shuffle_from n' (swap n j x) g
  end.

(** [random.shuffle(x)] *)
Definition random_shuffle {A} (x : list A) (g : rng) : list A * rng :=
  shuffle_from (length x - 1) x g.

Definition is_image (f : string) : bool :=
  endswith_any (lower f) [".png"; ".jpg"; ".jpeg"].

(** [[f for f in os.listdir(src_path) if f.lower().endswith(...)]] *)
Definition image_files (dir : gmap string content) : list string :=
  filter (λ f, is_image f = true) (os_listdir dir).

(** Shuffle, then [files[:SPLIT_COUNT]] and [files[SPLIT_COUNT:]]. *)
Definition split_files (files : list string) (g : rng)
    : list string * list string * rng :=
  let '(files, g) := random_shuffle files g in
  let test_files := take SPLIT_COUNT files in
  let train_files := drop SPLIT_COUNT files in
  (test_files, train_files, g).

Record state : Type := State {
  fs : filesystem;
  gen : rng;
  out : list string
}.

Definition print (line : string) (st : state) : state :=
  State (fs st) (gen st) (out st ++ [line]).









End Split.

(** ** Notions used to state the properties of the evaluation *)

Module EvaluateSpec.
Import Numpy Distance Evaluate.

(** [x] is at position [i] of [l], no item of [l] has a smaller key, and
    every item before position [i] has a strictly larger one. *)
Definition first_minimum {A} (key : A → R) (l : list A) (i : nat) (x : A) : Prop :=
  l !! i = Some x ∧
  (∀ j y, l !! j = Some y → (key x <= key y)%R) ∧
  (∀ j y, j < i → l !! j = Some y → (key x < key y)%R).

(** The dictionary [{k: f(k) for k in ks}]. *)
Definition tab {V} (ks : list string) (f : string → V) : gmap string V :=
  list_to_map ((λ k, (k, f k)) <$> ks).

(** The nested dictionary with the count [n metric t p] in the cell of the
    true class [t] and the predicted class [p]. *)
Definition cm_of (n : string → string → string → nat)
    : gmap string (gmap string (gmap string nat)) :=
  tab METRICS (λ m, tab CLASSES (λ t, tab CLASSES (λ p, n m t p))).

(** The prediction of a line under a metric. *)
Definition pred (metric : string) (r : row) : string :=
  if decide (metric = "Euclidean") then Pred_E r
  else if decide (metric = "Manhattan") then Pred_M r
  else Pred_C r.

(** The lines with true class [t] that [metric] assigns to [p]. *)
Definition cell_count (rs : list row) (metric t p : string) : nat :=
  length (filter (λ r, True_Class r = t ∧ pred metric r = p) rs).

(** The lines that [metric] assigns to their true class. *)
Definition correct_count (rs : list row) (metric : string) : nat :=
  length (filter (λ r, pred metric r = True_Class r) rs).

(** The accumulators after the lines [rs]. *)
Definition state_of (rs : list row) : state :=
  State rs (cm_of (cell_count rs)) (tab METRICS (correct_count rs)) (length rs).

(** The line of one test file: it depends on the file and the centroids
    only. *)
Definition make_row (centroids : gmap string ndarray) (true_class : string)
    (entry : string * file) : result row :=
  x ← np_load entry.2;
  dists ← for_in CLASSES (compare_step centroids x) empty_dists;
  de ← getitem dists "Euclidean";
  dm ← getitem dists "Manhattan";
  dc ← getitem dists "Cosine";
  pred_e ← argmin de;
  pred_m ← argmin dm;
  pred_c ← argmin dc;
  de_slice ← getitem de "pizza_slice";
  de_whole ← getitem de "whole_pizza";
  de_box ← getitem de "pizza_box";
  dc_slice ← getitem dc "pizza_slice";
  dc_whole ← getitem dc "whole_pizza";
  dc_box ← getitem dc "pizza_box";
  mret (Row entry.1 true_class pred_e pred_m pred_c
            (py_round de_slice 2) (py_round de_whole 2) (py_round de_box 2)
            (py_round dc_slice 4) (py_round dc_whole 4) (py_round dc_box 4)).

(** The test files of a class, none when its directory is missing. *)
Definition class_entries (e : env) (t : string) : list (string * file) :=
  npy_entries (default [] (test_dirs e !! os_path_join TEST_DIR t)).

(** The test files in the order the two loops visit them, each with its
    true class. *)
Definition samples (e : env) : list (string * (string * file)) :=
  c ← CLASSES; entry ← class_entries e c; [(c, entry)].

(** The lines of all test files. *)
Definition rows_of (e : env) (centroids : gmap string ndarray) : result (list row) :=
  mapM (λ s, make_row centroids s.1 s.2) (samples e).

(** The cell of a confusion matrix. *)
Definition cell (st : state) (metric t p : string) : option nat :=
  cm ← confusion_matrices st !! metric; cm_t ← cm !! t; cm_t !! p.

(** The files written after the lines [rs]. *)
Definition table_of (rs : list row) (metric : string)
    : string * list (string * list nat) :=
  (metric, (λ t, (t, (λ p, cell_count rs metric t p) <$> CLASSES)) <$> CLASSES).

Definition summary_of (rs : list row) (metric : string) : string * R * nat :=
  (metric, (INR (correct_count rs metric) / INR (length rs) * 100)%R,
   correct_count rs metric).

Definition report_of (rs : list row) : report :=
  Report rs (table_of rs <$> METRICS) (length rs) (summary_of rs <$> METRICS).


Definition cell_value (st : state) (metric t p : string) : nat :=
  default 0 (cell st metric t p).

(** The sum of a row of a confusion matrix, and of all its rows. *)
Definition row_sum (st : state) (metric t : string) : nat :=
  sum_list ((λ p, cell_value st metric t p) <$> CLASSES).
Definition grand_total (st : state) (metric : string) : nat :=
  sum_list ((λ t, row_sum st metric t) <$> CLASSES).

(** The distance of [x] to the centroid of class [k] under a metric. *)
Definition distance (metric : string) (x mu : ndarray) : result R :=
  if decide (metric = "Euclidean") then d_euclidean x mu
  else if decide (metric = "Manhattan") then d_manhattan x mu
  else d_cosine x mu.

Definition distance_to (centroids : gmap string ndarray) (metric : string)
    (x : ndarray) (k : string) : result R :=
  mu_k ← getitem centroids k; distance metric x mu_k.

(** [d] is the dictionary of the distances of [x] to the centroids under
    [metric], in the order of [CLASSES]. *)
Definition is_table (centroids : gmap string ndarray) (metric : string)
    (x : ndarray) (d : odict R) : Prop :=
  Forall2 (λ k kv, kv.1 = k ∧ distance_to centroids metric x k = Ok kv.2) CLASSES d.

Definition dists_are (dists : gmap string (odict R)) (de dm dc : odict R) : Prop :=
  dists !! "Euclidean" = Some de ∧
  dists !! "Manhattan" = Some dm ∧
  dists !! "Cosine" = Some dc.

(** One more sample of true class [t] predicted as [p] under [metric]. *)
Definition bump (metric t p : string) (n : string → string → string → nat)
    : string → string → string → nat :=
  λ m' t' p', n m' t' p' + (if decide (m' = metric ∧ t' = t ∧ p' = p) then 1 else 0).

Definition bump_correct (metric : string) (hit : bool) (k : string → nat)
    : string → nat :=
  λ m', k m' + (if decide (m' = metric ∧ hit = true) then 1 else 0).



End EvaluateSpec.

(** ** Concrete inputs *)

Module Examples.
Import Numpy.




(** A class matrix of two rows. *)
Definition two_rows : gmap string Centroid.matrix :=
  {[ Centroid.matrix_path "pizza_slice" := Centroid.Matrix 2 [[0; 2]; [2; 4]]%Z ]}.

(** A class matrix of two images of 3072 components, and one of the wrong
    width. *)
Definition flat_matrices : gmap string Centroid.matrix :=
  {[ Centroid.matrix_path "whole_pizza" :=
       Centroid.Matrix 3072 [replicate 3072 10%Z; replicate 3072 13%Z] ]}.

Definition narrow_matrices : gmap string Centroid.matrix :=
  {[ Centroid.matrix_path "whole_pizza" := Centroid.Matrix 2 [[0; 2]; [2; 4]]%Z ]}.

(** Three centroids of dimension two. *)
Definition centroid_store : gmap string ndarray :=
  list_to_map
    [(Evaluate.centroid_path "pizza_slice", F64 [0; 0]%R);
     (Evaluate.centroid_path "whole_pizza", F64 [3; 4]%R);
     (Evaluate.centroid_path "pizza_box", F64 [6; 8]%R)].

Definition loaded_centroids : gmap string ndarray :=
  <["pizza_box" := F64 [6; 8]%R]>
    (<["whole_pizza" := F64 [3; 4]%R]> (<["pizza_slice" := F64 [0; 0]%R]> ∅)).

(** No test vector at all. *)
Definition no_tests : Evaluate.env := Evaluate.Env centroid_store ∅.

(** Two test vectors of one class, listed in two orders. *)
Definition two_tests : Evaluate.env :=
  Evaluate.Env centroid_store
    {[ "processed_data/test/pizza_slice" :=
         [("test_pizza_slice_0.npy", Evaluate.Npy (U8 [0; 0]%Z));
          ("test_pizza_slice_0.csv", Evaluate.Other);
          ("test_pizza_slice_1.npy", Evaluate.Npy (U8 [3; 4]%Z))] ]}.


End Examples.


(** * Facts about the numpy model *)

Section numpy_facts.
Import Numpy.
Local Open Scope R_scope.

Lemma len_astype_float a : length (astype_float a) = len a.
Proof. destruct a; simpl; [apply length_fmap | done]. Qed.

Lemma broadcast_same_length {A B} (f : A → A → B) l1 l2 :
  length l1 = length l2 → broadcast f l1 l2 = Ok (zip_with f l1 l2).
Proof. intros E. unfold broadcast. by rewrite decide_True. Qed.


Lemma Rsum_cons x l : Rsum (x :: l) = x + Rsum l.
Proof. done. Qed.










Lemma np_dot_same_length a b : len a = len b → is_ok (np_dot a b).
Proof.
  intros E. unfold np_dot. rewrite decide_True by done.
  destruct a, b; eexists; done.
Qed.


Lemma np_linalg_norm_nonneg a : 0 <= np_linalg_norm a.
Proof. apply sqrt_pos. Qed.


Lemma np_linalg_norm_zeros a :
  Forall (λ r, r = 0) (astype_float a) → np_linalg_norm a = 0.
Proof.
  intros Hz. unfold np_linalg_norm. simpl.
  replace (Rsum _) with 0; [apply sqrt_0 |].
  symmetry. induction Hz as [| r l -> _ IH]; simpl; [done | lra].
Qed.

End numpy_facts.


(** * The distance functions *)

Section distance_facts.
Import Numpy Distance.
Local Open Scope R_scope.












Lemma np_subtract_same_len a b : len a = len b → is_ok (np_subtract a b).
Proof.
  intros E. unfold np_subtract.
  destruct a as [l1 | l1], b as [l2 | l2];
    rewrite broadcast_same_length by (by rewrite ?len_astype_float); by eexists.
Qed.

(** The guard of [d_cosine] and its two branches. *)
Lemma d_cosine_zero_norm v1 v2 :
  len v1 = len v2 → np_linalg_norm v1 = 0 ∨ np_linalg_norm v2 = 0 →
  d_cosine v1 v2 = Ok 1.
Proof.
  intros E Hz. unfold d_cosine.
  destruct (np_dot_same_length v1 v2 E) as [d ->]. cbn [mbind result_bind].
  destruct Hz as [Hz | Hz].
  - by rewrite (bool_decide_eq_true_2 _ Hz).
  - rewrite (bool_decide_eq_true_2 _ Hz). by rewrite orb_true_r.
Qed.

Lemma d_cosine_nonzero_norm v1 v2 d :
  np_dot v1 v2 = Ok d → np_linalg_norm v1 ≠ 0 → np_linalg_norm v2 ≠ 0 →
  np_linalg_norm v1 * np_linalg_norm v2 ≠ 0 ∧
  d_cosine v1 v2 = Ok (1 - d / (np_linalg_norm v1 * np_linalg_norm v2)).
Proof.
  intros Hd H1 H2.
  assert (np_linalg_norm v1 * np_linalg_norm v2 ≠ 0) as H12.
  { intros [|]%Rmult_integral; done. }
  split; [done |]. unfold d_cosine. rewrite Hd. cbn [mbind result_bind].
  rewrite (bool_decide_eq_false_2 _ H1), (bool_decide_eq_false_2 _ H2).
  cbn [orb]. unfold np_true_divide. by rewrite decide_False.
Qed.

Lemma d_cosine_same_length v1 v2 : len v1 = len v2 → is_ok (d_cosine v1 v2).
Proof.
  intros E.
  destruct (decide (np_linalg_norm v1 = 0)) as [H1 | H1];
    [eexists; apply d_cosine_zero_norm; auto |].
  destruct (decide (np_linalg_norm v2 = 0)) as [H2 | H2];
    [eexists; apply d_cosine_zero_norm; auto |].
  destruct (np_dot_same_length v1 v2 E) as [d Hd].
  eexists. by apply d_cosine_nonzero_norm.
Qed.




End distance_facts.


Section distance_claims.
Import Numpy Distance.
Local Open Scope R_scope.









End distance_claims.


(** * The centroid calculator *)

Section centroid_facts.
Import Numpy Centroid.
Local Open Scope R_scope.

(** Adding up rows of one length, component by component. *)
Lemma foldl_zip_plus (d : nat) (rs : list (list R)) (acc : list R) :
  Forall (λ r, length r = d) rs → length acc = d →
  length (foldl (zip_with Rplus) acc rs) = d ∧
  ∀ i, (i < d)%nat →
    nth i (foldl (zip_with Rplus) acc rs) 0
    = nth i acc 0 + Rsum ((λ r, nth i r 0) <$> rs).
Proof.
  intros Hrs. revert acc. induction Hrs as [| r rs Hr _ IH]; intros acc Hacc.
  - split; [done |]. intros i _. cbn. lra.
  - cbn [foldl]. destruct (IH (zip_with Rplus acc r)) as [Hlen Hnth].
    { rewrite length_zip_with, Hacc, Hr. apply Nat.min_id. }
    split; [done |]. intros i Hi. rewrite (Hnth i Hi), fmap_cons, Rsum_cons.
    rewrite (nth_lookup (zip_with _ _ _)), (nth_lookup acc), (nth_lookup r).
    rewrite lookup_zip_with.
    destruct (lookup_lt_is_Some_2 acc i) as [a Ha]; [lia |].
    destruct (lookup_lt_is_Some_2 r i) as [b Hb]; [lia |].
    rewrite Ha, Hb. simpl. lra.
Qed.

Lemma nth_replicate_zero (d i : nat) : nth i (replicate d 0) 0 = 0.
Proof.
  rewrite nth_lookup. destruct (replicate d 0 !! i) as [x |] eqn:E; [| done].
  by apply lookup_replicate in E as [-> _].
Qed.

Lemma np_mean_axis0_spec (m : matrix) :
  wf_matrix m → (1 ≤ length (rows m))%nat →
  ∃ c, np_mean_axis0 m = Ok c ∧ length c = ncols m ∧
       ∀ i, (i < ncols m)%nat → c !! i = Some (column_mean m i).
Proof.
  intros Hwf Hn. unfold np_mean_axis0. rewrite decide_False by lia.
  destruct (foldl_zip_plus (ncols m) (map (map IZR) (rows m)) (replicate (ncols m) 0))
    as [Hlen Hnth].
  { apply Forall_fmap. eapply Forall_impl; [apply Hwf |].
    intros r Hr. simpl. by rewrite length_map. }
  { apply length_replicate. }
  eexists. split; [done |]. split; [by rewrite length_fmap |].
  intros i Hi. rewrite list_lookup_fmap.
  destruct (lookup_lt_is_Some_2 (foldl (zip_with Rplus) (replicate (ncols m) 0)
              (map (map IZR) (rows m))) i) as [s Hs]; [lia |].
  rewrite Hs. simpl. f_equal. unfold column_mean. f_equal.
  specialize (Hnth i Hi). rewrite nth_lookup, Hs, nth_replicate_zero in Hnth.
  simpl in Hnth. rewrite Hnth, Rplus_0_l. unfold column.
  change (map (map IZR) (rows m)) with (map IZR <$> rows m).
  rewrite <- list_fmap_compose. f_equal. apply list_fmap_ext.
  intros _ r _. simpl.
  change 0 with (IZR 0). apply map_nth.
Qed.

Lemma np_mean_axis0_single (d : nat) (r : list Z) :
  length r = d → np_mean_axis0 (Matrix d [r]) = Ok (IZR <$> r).
Proof.
  intros Hr.
  destruct (np_mean_axis0_spec (Matrix d [r])) as (c & -> & Hlen & Hc).
  { by constructor. }
  { simpl. lia. }
  f_equal. apply list_eq. intros i. simpl in *.
  destruct (decide (i < d)%nat) as [Hi | Hi].
  - rewrite (Hc i Hi), list_lookup_fmap. unfold column_mean, column. simpl.
    destruct (lookup_lt_is_Some_2 r i) as [z Hz]; [lia |].
    rewrite Hz, nth_lookup, Hz. simpl. f_equal. field.
  - rewrite !lookup_ge_None_2; [done | |]; rewrite ?length_fmap; lia.
Qed.

(** What one iteration of the loop saves. *)
Lemma centroid_step_saves mats st class_name m c st' e :
  mats !! matrix_path class_name = Some m → np_mean_axis0 m = Ok c →
  centroid_step mats st class_name = (st', e) →
  centroids st' !! centroid_path class_name = Some (F64 c).
Proof.
  intros Hm Hc. unfold centroid_step. rewrite Hm, Hc.
  case_decide; intros [= <- <-]; simpl; apply lookup_insert_eq.
Qed.

Lemma centroid_step_other mats st class_name st' e p :
  p ≠ centroid_path class_name →
  centroid_step mats st class_name = (st', e) →
  centroids st' !! p = centroids st !! p.
Proof.
  intros Hp. unfold centroid_step.
  destruct (mats !! matrix_path class_name) as [m |]; [| by intros [= <- <-]].
  destruct (np_mean_axis0 m) as [c |]; [| by intros [= <- <-]].
  case_decide; intros [= <- <-]; simpl; by apply lookup_insert_ne.
Qed.

Lemma for_each_centroid_other mats p l st st' e :
  Forall (λ k, p ≠ centroid_path k) l →
  for_each (centroid_step mats) st l = (st', e) →
  centroids st' !! p = centroids st !! p.
Proof.
  intros Hl. revert st. induction Hl as [| k l Hk _ IH]; intros st; simpl.
  - by intros [= <- <-].
  - destruct (centroid_step mats st k) as [s1 [e1 |]] eqn:Hstep.
    + intros [= <- <-]. by eapply centroid_step_other.
    + intros Hrest. rewrite (IH _ Hrest). by eapply centroid_step_other.
Qed.

Lemma for_each_centroid_saves mats class_name m c l st st' :
  mats !! matrix_path class_name = Some m → np_mean_axis0 m = Ok c →
  class_name ∈ l →
  (∀ k, k ∈ l → k ≠ class_name → centroid_path class_name ≠ centroid_path k) →
  for_each (centroid_step mats) st l = (st', None) →
  centroids st' !! centroid_path class_name = Some (F64 c).
Proof.
  intros Hm Hc. revert st. induction l as [| k l IH]; intros st Hin Hpaths; simpl.
  - by apply elem_of_nil in Hin.
  - destruct (centroid_step mats st k) as [s1 [e1 |]] eqn:Hstep; [done |].
    intros Hrest. destruct (decide (class_name ∈ l)) as [Hl | Hl].
    + apply (IH s1); [done | | done]. intros k' Hk'. apply Hpaths. by right.
    + apply elem_of_cons in Hin as [-> | ?]; [| done].
      rewrite (for_each_centroid_other mats (centroid_path k) l s1 st' None).
      * by eapply centroid_step_saves.
      * apply Forall_forall. intros k' Hk'. apply Hpaths; [by right |].
        intros ->. done.
      * done.
Qed.

Lemma centroid_path_distinct (c k : string) :
  c ∈ CLASSES → k ∈ CLASSES → k ≠ c → centroid_path c ≠ centroid_path k.
Proof.
  unfold CLASSES. rewrite !elem_of_cons, !elem_of_nil.
  intros [-> | [-> | [-> | []]]] [-> | [-> | [-> | []]]] Hne; done.
Qed.

End centroid_facts.

Section centroid_claims.
Import Numpy Centroid.
Local Open Scope R_scope.

(** C1: for a class matrix of n ≥ 1 rows of dimension d, the centroid that
    [calculate_and_visualize_centroids] computes and saves has d components,
    the i-th being the arithmetic mean of the i-th components of the rows;
    for a single row it is that row. *)
Theorem centroid_is_mean (mats : gmap string matrix) (st : state)
    (class_name : string) (m : matrix) :
  class_name ∈ CLASSES →
  mats !! matrix_path class_name = Some m →
  wf_matrix m → (1 ≤ length (rows m))%nat →
  ∃ c, np_mean_axis0 m = Ok c ∧
       length c = ncols m ∧
       (∀ i, (i < ncols m)%nat → c !! i = Some (column_mean m i)) ∧
       (∀ r, rows m = [r] → c = IZR <$> r) ∧
       (∀ st' e, centroid_step mats st class_name = (st', e) →
          centroids st' !! centroid_path class_name = Some (F64 c)) ∧
       (∀ st', calculate_and_visualize_centroids mats st = (st', None) →
          centroids st' !! centroid_path class_name = Some (F64 c)).
Proof.
  intros Hin Hm Hwf Hn.
  destruct (np_mean_axis0_spec m Hwf Hn) as (c & Hc & Hlen & Hmean).
  exists c. split_and!; [done.. | | |].
  - intros r Hr. destruct m as [d rs]. simpl in *. subst rs.
    rewrite np_mean_axis0_single in Hc; [by injection Hc |].
    by inversion Hwf.
  - intros st' e. by apply centroid_step_saves with (m := m).
  - intros st'. unfold calculate_and_visualize_centroids.
    apply for_each_centroid_saves with (m := m); [done.. |].
    intros k Hk Hne. by apply centroid_path_distinct.
Qed.

End centroid_claims.


(** * The decision rule *)

Section argmin_facts.
Import Numpy Distance Evaluate EvaluateSpec.

Lemma first_minimum_snoc {A} (key : A → R) (pre : list A) (i : nat) (best y : A) :
  first_minimum key pre i best →
  ∃ i', first_minimum key (pre ++ [y]) i'
          (if decide (key y < key best)%R then y else best).
Proof.
  intros (Hi & Hmin & Hfirst).
  destruct (decide (key y < key best)%R) as [Hlt | Hge].
  - exists (length pre). split_and!.
    + by rewrite lookup_app_r, Nat.sub_diag.
    + intros j z [Hz | [_ Hz]]%lookup_app_Some.
      * specialize (Hmin j z Hz). lra.
      * destruct (j - length pre) as [| ?]; [| done].
        injection Hz as <-. lra.
    + intros j z Hj Hz. rewrite lookup_app_l in Hz by done.
      specialize (Hmin j z Hz). lra.
  - exists i. split_and!.
    + by apply lookup_app_l_Some.
    + intros j z [Hz | [_ Hz]]%lookup_app_Some; [by eapply Hmin |].
      destruct (j - length pre) as [| ?]; [| done].
      injection Hz as <-. lra.
    + intros j z Hj Hz. apply lookup_lt_Some in Hi.
      rewrite lookup_app_l in Hz by lia. by eapply Hfirst.
Qed.

Lemma foldl_first_minimum {A} (key : A → R) (rest pre : list A) (i : nat) (best : A) :
  first_minimum key pre i best →
  ∃ i', first_minimum key (pre ++ rest) i'
          (foldl (λ best y, if decide (key y < key best)%R then y else best) best rest).
Proof.
  revert pre i best. induction rest as [| y rest IH]; intros pre i best Hbest.
  - exists i. by rewrite app_nil_r.
  - destruct (first_minimum_snoc key pre i best y Hbest) as [i' Hi'].
    destruct (IH _ _ _ Hi') as [i'' Hi'']. exists i''.
    by rewrite <- app_assoc in Hi''.
Qed.

Lemma py_min_first_minimum {A} (key : A → R) (items : list A) :
  items ≠ [] → ∃ i x, py_min key items = Ok x ∧ first_minimum key items i x.
Proof.
  destruct items as [| x rest]; [done |]. intros _.
  destruct (foldl_first_minimum key rest [x] 0 x) as [i Hi].
  - split_and!; [done | | intros; lia].
    intros [| j] y [= <-]. lra.
  - eauto.
Qed.


Lemma argmin_first_minimum (d : odict R) :
  d ≠ [] → ∃ i k v, argmin d = Ok k ∧ first_minimum snd d i (k, v).
Proof.
  intros Hd. destruct (py_min_first_minimum snd d Hd) as (i & [k v] & Hmin & Hfirst).
  exists i, k, v. unfold argmin. by rewrite Hmin.
Qed.

Lemma argmin_elem_of (d : odict R) k : argmin d = Ok k → k ∈ d.*1.
Proof.
  intros Hk. destruct d as [| kv d]; [done |].
  destruct (argmin_first_minimum (kv :: d)) as (i & k' & v & Hk' & Hi & _); [done |].
  rewrite Hk in Hk'. injection Hk' as <-.
  apply list_elem_of_fmap. exists (k, v). split; [done |].
  by eapply list_elem_of_lookup_2.
Qed.

End argmin_facts.

(** * Dictionaries given by a table *)

Section tab_facts.
Import EvaluateSpec.
Context {V : Type}.
Implicit Types (f g : string → V) (ks : list string).

Lemma lookup_tab ks f k :
  tab ks f !! k = if decide (k ∈ ks) then Some (f k) else None.
Proof.
  unfold tab. induction ks as [| k' ks IH].
  - apply lookup_empty.
  - rewrite fmap_cons, list_to_map_cons.
    destruct (decide (k' = k)) as [-> | Hne].
    + rewrite lookup_insert_eq, decide_True; [done | by left].
    + rewrite lookup_insert_ne, IH by done.
      destruct (decide (k ∈ ks)) as [Hin | Hin].
      * rewrite decide_True; [done | by right].
      * rewrite decide_False; [done |]. by intros [-> | ?]%elem_of_cons.
Qed.

Lemma lookup_tab_Some ks f k : k ∈ ks → tab ks f !! k = Some (f k).
Proof. intros Hk. by rewrite lookup_tab, decide_True. Qed.

Lemma getitem_tab ks f k : k ∈ ks → getitem (tab ks f) k = Ok (f k).
Proof. intros Hk. unfold getitem. by rewrite lookup_tab_Some. Qed.

Lemma tab_ext ks f g : (∀ k, k ∈ ks → f k = g k) → tab ks f = tab ks g.
Proof.
  intros Hfg. apply map_eq. intros k. rewrite !lookup_tab.
  case_decide; [by rewrite Hfg | done].
Qed.

Lemma insert_tab ks f k v :
  k ∈ ks → <[k := v]> (tab ks f) = tab ks (λ k', if decide (k' = k) then v else f k').
Proof.
  intros Hk. apply map_eq. intros k'. rewrite lookup_tab.
  destruct (decide (k' = k)) as [-> | Hne].
  - rewrite lookup_insert_eq. by rewrite decide_True.
  - rewrite lookup_insert_ne, lookup_tab by done. done.
Qed.

End tab_facts.


(** * One test file *)

Section process_file_facts.
Import Numpy Distance Evaluate EvaluateSpec.

Lemma bind_Ok {A B} (m : result A) (f : A → result B) b :
  m ≫= f = Ok b → ∃ a, m = Ok a ∧ f a = Ok b.
Proof. destruct m as [a |]; [eauto | done]. Qed.

Lemma getitem_Ok `{Lookup K V M} (d : M) (k : K) v :
  getitem d k = Ok v ↔ d !! k = Some v.
Proof. unfold getitem. destruct (d !! k); split; congruence. Qed.

Lemma getitem_insert_ne {V} (m : gmap string V) k k' v :
  k ≠ k' → getitem (<[k := v]> m) k' = getitem m k'.
Proof. intros Hne. unfold getitem. by rewrite lookup_insert_ne. Qed.

Lemma getitem_insert_eq {V} (m : gmap string V) k v :
  getitem (<[k := v]> m) k = Ok v.
Proof. unfold getitem. by rewrite lookup_insert_eq. Qed.

Lemma elem_of_CLASSES k :
  k ∈ CLASSES ↔ k = "pizza_slice" ∨ k = "whole_pizza" ∨ k = "pizza_box".
Proof. unfold CLASSES. rewrite !elem_of_cons, elem_of_nil. tauto. Qed.

Lemma elem_of_METRICS m :
  m ∈ METRICS ↔ m = "Euclidean" ∨ m = "Manhattan" ∨ m = "Cosine".
Proof. unfold METRICS. rewrite !elem_of_cons, elem_of_nil. tauto. Qed.

Lemma compare_step_Ok cs x k dists dists' de dm dc :
  dists_are dists de dm dc →
  compare_step cs x k dists = Ok dists' →
  ∃ e m c, distance_to cs "Euclidean" x k = Ok e ∧
           distance_to cs "Manhattan" x k = Ok m ∧
           distance_to cs "Cosine" x k = Ok c ∧
           dists_are dists' (odict_set k e de) (odict_set k m dm) (odict_set k c dc).
Proof.
  intros (He & Hm & Hc). unfold compare_step, distance_to, distance.
  destruct (getitem cs k) as [mu |]; [| done]. cbn [mbind result_bind].
  destruct (d_euclidean x mu) as [e |]; [| done]. cbn [mbind result_bind].
  rewrite (proj2 (getitem_Ok dists "Euclidean" de) He). cbn [mbind result_bind].
  destruct (d_manhattan x mu) as [m |]; [| done]. cbn [mbind result_bind].
  rewrite getitem_insert_ne, (proj2 (getitem_Ok dists "Manhattan" dm) Hm) by done.
  cbn [mbind result_bind].
  destruct (d_cosine x mu) as [c |]; [| done]. cbn [mbind result_bind].
  rewrite !getitem_insert_ne, (proj2 (getitem_Ok dists "Cosine" dc) Hc) by done.
  cbn [mbind result_bind mret result_ret].
  intros [= <-]. exists e, m, c. unfold dists_are. split_and!; try done.
  - by rewrite !lookup_insert_ne, lookup_insert_eq by done.
  - by rewrite lookup_insert_ne, lookup_insert_eq by done.
  - by rewrite lookup_insert_eq.
Qed.

Lemma dists_are_empty : dists_are empty_dists [] [] [].
Proof. done. Qed.

Lemma compare_all cs x dists :
  for_in CLASSES (compare_step cs x) empty_dists = Ok dists →
  ∃ de dm dc, dists_are dists de dm dc ∧
              is_table cs "Euclidean" x de ∧
              is_table cs "Manhattan" x dm ∧
              is_table cs "Cosine" x dc.
Proof.
  unfold CLASSES. cbn [for_in].
  intros (d1 & H1 & (d2 & H2 & (d3 & H3 & [= <-])%bind_Ok)%bind_Ok)%bind_Ok.
  destruct (compare_step_Ok _ _ _ _ _ _ _ _ dists_are_empty H1)
    as (e1 & m1 & c1 & He1 & Hm1 & Hc1 & Hd1).
  destruct (compare_step_Ok _ _ _ _ _ _ _ _ Hd1 H2)
    as (e2 & m2 & c2 & He2 & Hm2 & Hc2 & Hd2).
  destruct (compare_step_Ok _ _ _ _ _ _ _ _ Hd2 H3)
    as (e3 & m3 & c3 & He3 & Hm3 & Hc3 & Hd3).
  eexists _, _, _. split; [exact Hd3 |].
  split_and!; repeat (constructor; [done |]); constructor.
Qed.

Lemma is_table_inv cs metric x d :
  is_table cs metric x d →
  ∃ v1 v2 v3, d = [("pizza_slice", v1); ("whole_pizza", v2); ("pizza_box", v3)].
Proof.
  unfold is_table, CLASSES. intros Hd.
  apply Forall2_cons_inv_l in Hd as ([k1 v1] & d1 & [Hk1 _] & Hd & ->).
  apply Forall2_cons_inv_l in Hd as ([k2 v2] & d2 & [Hk2 _] & Hd & ->).
  apply Forall2_cons_inv_l in Hd as ([k3 v3] & d3 & [Hk3 _] & Hd & ->).
  apply Forall2_nil_inv_l in Hd as ->. simpl in *. subst. eauto.
Qed.

Lemma is_table_argmin cs metric x d :
  is_table cs metric x d → ∃ p, argmin d = Ok p ∧ p ∈ CLASSES.
Proof.
  intros (v1 & v2 & v3 & ->)%is_table_inv.
  destruct (argmin_first_minimum
              [("pizza_slice", v1); ("whole_pizza", v2); ("pizza_box", v3)])
    as (i & k & v & Hk & _); [done |].
  exists k. split; [done |]. by apply argmin_elem_of in Hk.
Qed.

Lemma cm_of_ext n n' :
  (∀ m t p, m ∈ METRICS → t ∈ CLASSES → p ∈ CLASSES → n m t p = n' m t p) →
  cm_of n = cm_of n'.
Proof.
  intros Hn. unfold cm_of. apply tab_ext. intros m Hm.
  apply tab_ext. intros t Ht. apply tab_ext. intros p Hp. by apply Hn.
Qed.

Lemma decide_step_spec t dists metric preds rs n kf tot d p :
  metric ∈ METRICS → t ∈ CLASSES → p ∈ CLASSES →
  dists !! metric = Some d → argmin d = Ok p →
  decide_step t dists metric (preds, State rs (cm_of n) (tab METRICS kf) tot)
  = Ok (<[metric := p]> preds,
        State rs (cm_of (bump metric t p n))
              (tab METRICS (bump_correct metric (bool_decide (p = t)) kf)) tot).
Proof.
  intros Hm Ht Hp Hd Harg. unfold decide_step.
  rewrite (proj2 (getitem_Ok dists metric d) Hd). cbn [mbind result_bind].
  rewrite Harg. cbn [mbind result_bind correct_counts confusion_matrices].
  assert ((if decide (p = t)
           then n0 ← getitem (tab METRICS kf) metric; mret (<[metric := n0 + 1]> (tab METRICS kf))
           else mret (tab METRICS kf))
          = Ok (tab METRICS (bump_correct metric (bool_decide (p = t)) kf))) as ->.
  { destruct (decide (p = t)) as [-> | Hne].
    - rewrite getitem_tab by done. cbn [mbind result_bind mret result_ret].
      f_equal. rewrite insert_tab by done. apply tab_ext. intros m' _.
      unfold bump_correct. rewrite bool_decide_eq_true_2 by done.
      destruct (decide (m' = metric)) as [-> | ?].
      + by rewrite decide_True.
      + rewrite decide_False by tauto. lia.
    - cbn [mret result_ret]. f_equal. apply tab_ext. intros m' _.
      unfold bump_correct. rewrite bool_decide_eq_false_2 by done.
      rewrite decide_False; [lia | by intros [_ ?]]. }
  cbn [mbind result_bind]. unfold cm_of.
  rewrite getitem_tab by done. cbn [mbind result_bind].
  rewrite getitem_tab by done. cbn [mbind result_bind].
  rewrite getitem_tab by done. cbn [mbind result_bind mret result_ret results total_images].
  do 3 f_equal.
  rewrite !insert_tab by done. apply tab_ext. intros m' _.
  destruct (decide (m' = metric)) as [-> | Hne].
  - apply tab_ext. intros t' _. destruct (decide (t' = t)) as [-> | Hne].
    + apply tab_ext. intros p' _. unfold bump.
      destruct (decide (p' = p)) as [-> | Hne].
      * by rewrite decide_True.
      * rewrite decide_False by tauto. lia.
    + apply tab_ext. intros p' _. unfold bump. rewrite decide_False by tauto. lia.
  - apply tab_ext. intros t' _. apply tab_ext. intros p' _.
    unfold bump. rewrite decide_False by tauto. lia.
Qed.

End process_file_facts.


(** The guard of a count holds on one side and fails on the other. *)
Ltac count_contra :=
  exfalso; destruct_and?;
  match goal with H : ¬ _ |- _ => apply H; split_and?; congruence end.

Section process_file_spec.
Import Numpy Distance Evaluate EvaluateSpec.

Lemma cell_count_snoc rs r m t p :
  cell_count (rs ++ [r]) m t p
  = cell_count rs m t p + (if decide (True_Class r = t ∧ pred m r = p) then 1 else 0).
Proof.
  unfold cell_count. rewrite filter_app, length_app. f_equal.
  rewrite filter_cons, filter_nil. by case_decide.
Qed.

Lemma correct_count_snoc rs r m :
  correct_count (rs ++ [r]) m
  = correct_count rs m + (if decide (pred m r = True_Class r) then 1 else 0).
Proof.
  unfold correct_count. rewrite filter_app, length_app. f_equal.
  rewrite filter_cons, filter_nil. by case_decide.
Qed.

Lemma state_of_snoc rs r t :
  True_Class r = t →
  State (rs ++ [r])
    (cm_of (bump "Cosine" t (Pred_C r)
             (bump "Manhattan" t (Pred_M r)
               (bump "Euclidean" t (Pred_E r) (cell_count rs)))))
    (tab METRICS
       (bump_correct "Cosine" (bool_decide (Pred_C r = t))
         (bump_correct "Manhattan" (bool_decide (Pred_M r = t))
           (bump_correct "Euclidean" (bool_decide (Pred_E r = t)) (correct_count rs)))))
    (length rs + 1)
  = state_of (rs ++ [r]).
Proof.
  intros <-. unfold state_of. f_equal.
  - apply cm_of_ext. intros m t p Hm _ _. rewrite cell_count_snoc. unfold bump.
    apply elem_of_METRICS in Hm as [-> | [-> | ->]]; unfold pred; simpl;
      repeat case_decide; first [lia | count_contra].
  - apply tab_ext. intros m Hm. rewrite correct_count_snoc. unfold bump_correct.
    apply elem_of_METRICS in Hm as [-> | [-> | ->]]; unfold pred; simpl;
      repeat case_bool_decide; repeat case_decide; first [lia | count_contra].
  - by rewrite length_app.
Qed.

Lemma process_file_spec cs t entry rs :
  t ∈ CLASSES →
  process_file cs t entry (state_of rs)
  = r ← make_row cs t entry; mret (state_of (rs ++ [r])).
Proof.
  intros Ht. destruct entry as [filename f]. unfold process_file, make_row.
  cbn [fst snd]. destruct (np_load f) as [x |]; [| done]. cbn [mbind result_bind].
  destruct (for_in CLASSES (compare_step cs x) empty_dists) as [dists |] eqn:Hcmp;
    [| done].
  cbn [mbind result_bind].
  destruct (compare_all cs x dists Hcmp) as (de & dm & dc & (He & Hm & Hc) & Te & Tm & Tc).
  destruct (is_table_argmin _ _ _ _ Te) as (pe & Hpe & Hpe').
  destruct (is_table_argmin _ _ _ _ Tm) as (pm & Hpm & Hpm').
  destruct (is_table_argmin _ _ _ _ Tc) as (pc & Hpc & Hpc').
  rewrite (proj2 (getitem_Ok dists "Euclidean" de) He).
  rewrite (proj2 (getitem_Ok dists "Manhattan" dm) Hm).
  rewrite (proj2 (getitem_Ok dists "Cosine" dc) Hc).
  cbn [mbind result_bind]. rewrite Hpe, Hpm, Hpc. cbn [mbind result_bind].
  unfold METRICS at 1. cbn [for_in].
  change (results (state_of rs)) with rs.
  change (confusion_matrices (state_of rs)) with (cm_of (cell_count rs)).
  change (correct_counts (state_of rs)) with (tab METRICS (correct_count rs)).
  change (total_images (state_of rs)) with (length rs).
  rewrite (decide_step_spec t dists "Euclidean" _ _ _ _ _ de pe)
    by first [done | apply elem_of_METRICS; auto].
  cbn [mbind result_bind].
  rewrite (decide_step_spec t dists "Manhattan" _ _ _ _ _ dm pm)
    by first [done | apply elem_of_METRICS; auto].
  cbn [mbind result_bind].
  rewrite (decide_step_spec t dists "Cosine" _ _ _ _ _ dc pc)
    by first [done | apply elem_of_METRICS; auto].
  cbn [mbind result_bind].
  set (preds := <["Cosine" := pc]> (<["Manhattan" := pm]> (<["Euclidean" := pe]> ∅))).
  assert (getitem preds "Euclidean" = Ok pe) as -> by done.
  assert (getitem preds "Manhattan" = Ok pm) as -> by done.
  assert (getitem preds "Cosine" = Ok pc) as -> by done.
  cbn [mbind result_bind].
  apply is_table_inv in Te as (e1 & e2 & e3 & ->).
  apply is_table_inv in Tc as (c1 & c2 & c3 & ->).
  set (de := [("pizza_slice", e1); ("whole_pizza", e2); ("pizza_box", e3)]).
  set (dc := [("pizza_slice", c1); ("whole_pizza", c2); ("pizza_box", c3)]).
  change (getitem de "pizza_slice") with (Ok e1).
  change (getitem de "whole_pizza") with (Ok e2).
  change (getitem de "pizza_box") with (Ok e3).
  change (getitem dc "pizza_slice") with (Ok c1).
  change (getitem dc "whole_pizza") with (Ok c2).
  change (getitem dc "pizza_box") with (Ok c3).
  cbn [mbind result_bind mret result_ret results confusion_matrices correct_counts
       total_images].
  f_equal. by rewrite <- state_of_snoc with (t := t).
Qed.

End process_file_spec.


(** * The two loops *)

Section loop_facts.
Import Numpy Distance Evaluate EvaluateSpec.

Lemma mapM_result_app {A B} (f : A → result B) (l1 l2 : list A) :
  mapM f (l1 ++ l2) = (r1 ← mapM f l1; r2 ← mapM f l2; mret (r1 ++ r2)).
Proof.
  induction l1 as [| a l1 IH]; simpl.
  - by destruct (mapM f l2).
  - destruct (f a) as [b |]; [| done]. simpl. rewrite IH.
    destruct (mapM f l1) as [r1 |]; [| done]. simpl.
    by destruct (mapM f l2).
Qed.

Lemma for_in_process_file cs t entries rs :
  t ∈ CLASSES →
  for_in entries (process_file cs t) (state_of rs)
  = rows ← mapM (make_row cs t) entries; mret (state_of (rs ++ rows)).
Proof.
  intros Ht. revert rs. induction entries as [| entry entries IH]; intros rs.
  - simpl. by rewrite app_nil_r.
  - cbn [for_in]. rewrite process_file_spec by done. simpl.
    destruct (make_row cs t entry) as [r |]; [| done]. simpl. rewrite IH.
    destruct (mapM (make_row cs t) entries) as [rows |]; [| done]. simpl.
    by rewrite <- app_assoc.
Qed.

Lemma class_step_spec e cs t rs :
  t ∈ CLASSES →
  class_step e cs t (state_of rs)
  = rows ← mapM (make_row cs t) (class_entries e t);
    mret (state_of (rs ++ rows)).
Proof.
  intros Ht. unfold class_step, class_entries.
  destruct (test_dirs e !! os_path_join TEST_DIR t) as [entries |]; simpl.
  - by apply for_in_process_file.
  - by rewrite app_nil_r.
Qed.

Lemma bind_pair_fmap {A} (t : string) (entries : list A) :
  (entry ← entries; [(t, entry)]) = (λ entry, (t, entry)) <$> entries.
Proof. induction entries as [| entry entries IH]; [done |]. cbn. by f_equal. Qed.

Lemma mapM_result_fmap {A B C} (f : B → result C) (g : A → B) (l : list A) :
  mapM f (g <$> l) = mapM (λ a, f (g a)) l.
Proof. induction l as [| a l IH]; [done |]. cbn. by rewrite IH. Qed.

Lemma samples_unfold e :
  samples e = ((λ entry, ("pizza_slice", entry)) <$> class_entries e "pizza_slice")
              ++ ((λ entry, ("whole_pizza", entry)) <$> class_entries e "whole_pizza")
              ++ ((λ entry, ("pizza_box", entry)) <$> class_entries e "pizza_box").
Proof.
  rewrite <- !bind_pair_fmap. unfold samples, CLASSES, class_entries.
  cbn [mbind list_bind]. by rewrite app_nil_r.
Qed.

Lemma initial_state_of : initial_state = state_of [].
Proof. done. Qed.

Lemma evaluation_loop_spec e cs :
  evaluation_loop e cs = rows ← rows_of e cs; mret (state_of rows).
Proof.
  unfold rows_of. rewrite samples_unfold, !mapM_result_app, !mapM_result_fmap.
  cbn [fst snd]. unfold evaluation_loop, CLASSES. rewrite initial_state_of.
  cbn [for_in].
  rewrite class_step_spec by (apply elem_of_CLASSES; auto).
  destruct (mapM _ (class_entries e "pizza_slice")) as [r1 |]; [| done].
  cbn [mbind result_bind mret result_ret app].
  rewrite class_step_spec by (apply elem_of_CLASSES; auto).
  destruct (mapM _ (class_entries e "whole_pizza")) as [r2 |]; [| done].
  cbn [mbind result_bind mret result_ret].
  rewrite class_step_spec by (apply elem_of_CLASSES; auto).
  destruct (mapM _ (class_entries e "pizza_box")) as [r3 |]; [| done].
  cbn [mbind result_bind mret result_ret]. by rewrite app_assoc.
Qed.

End loop_facts.


(** * Which exceptions the evaluation can raise *)

Section error_facts.
Import Numpy Distance Evaluate EvaluateSpec.

Lemma broadcast_Raise {A B} (f : A → A → B) l1 l2 ex :
  broadcast f l1 l2 = Raise ex → ex = ValueError.
Proof.
  unfold broadcast. case_decide; [done |].
  destruct l1 as [| a [| a' l1]], l2 as [| b [| b' l2]]; congruence.
Qed.

Lemma np_subtract_Raise a b ex : np_subtract a b = Raise ex → ex = ValueError.
Proof.
  unfold np_subtract. destruct a as [l1 | l1], b as [l2 | l2];
    match goal with |- context [broadcast ?f ?x ?y] =>
      destruct (broadcast f x y) as [l |] eqn:E end;
    try done; intros [= <-]; by apply broadcast_Raise in E.
Qed.

Lemma distance_Raise metric x mu ex :
  distance metric x mu = Raise ex → ex = ValueError.
Proof.
  unfold distance. repeat case_decide.
  - unfold d_euclidean. destruct (np_subtract x mu) eqn:E; [done |].
    intros [= <-]. by apply np_subtract_Raise in E.
  - unfold d_manhattan. destruct (np_subtract x mu) eqn:E; [done |].
    intros [= <-]. by apply np_subtract_Raise in E.
  - intros Hc. destruct (decide (len x = len mu)) as [E | NE].
    + destruct (d_cosine_same_length x mu E) as [c Hc']. congruence.
    + unfold d_cosine, np_dot in Hc. rewrite decide_False in Hc by done.
      by injection Hc.
Qed.

Lemma distance_same_length metric x mu : len x = len mu → is_ok (distance metric x mu).
Proof.
  intros E. unfold distance. repeat case_decide.
  - unfold d_euclidean. destruct (np_subtract_same_len x mu E) as [d ->]. by eexists.
  - unfold d_manhattan. destruct (np_subtract_same_len x mu E) as [d ->]. by eexists.
  - by apply d_cosine_same_length.
Qed.

Lemma compare_step_eq cs x k dists de dm dc :
  dists_are dists de dm dc →
  compare_step cs x k dists
  = (e ← distance_to cs "Euclidean" x k;
     m ← distance_to cs "Manhattan" x k;
     c ← distance_to cs "Cosine" x k;
     mret (<["Cosine" := odict_set k c dc]>
            (<["Manhattan" := odict_set k m dm]>
              (<["Euclidean" := odict_set k e de]> dists)))).
Proof.
  intros (He & Hm & Hc). unfold compare_step, distance_to.
  destruct (getitem cs k) as [mu |]; [| done]. cbn [mbind result_bind].
  change (distance "Euclidean" x mu) with (d_euclidean x mu).
  change (distance "Manhattan" x mu) with (d_manhattan x mu).
  change (distance "Cosine" x mu) with (d_cosine x mu).
  destruct (d_euclidean x mu) as [e |]; [| done]. cbn [mbind result_bind].
  rewrite (proj2 (getitem_Ok dists "Euclidean" de) He). cbn [mbind result_bind].
  destruct (d_manhattan x mu) as [m |]; [| done]. cbn [mbind result_bind].
  rewrite getitem_insert_ne, (proj2 (getitem_Ok dists "Manhattan" dm) Hm) by done.
  cbn [mbind result_bind].
  destruct (d_cosine x mu) as [c |]; [| done]. cbn [mbind result_bind].
  rewrite !getitem_insert_ne, (proj2 (getitem_Ok dists "Cosine" dc) Hc) by done.
  done.
Qed.

Lemma distance_to_Raise cs metric x k ex :
  is_Some (cs !! k) → distance_to cs metric x k = Raise ex → ex = ValueError.
Proof.
  intros [mu Hmu]. unfold distance_to.
  rewrite (proj2 (getitem_Ok cs k mu) Hmu). apply distance_Raise.
Qed.

Lemma compare_step_Raise cs x k dists de dm dc ex :
  dists_are dists de dm dc → is_Some (cs !! k) →
  compare_step cs x k dists = Raise ex → ex = ValueError.
Proof.
  intros Hd Hk. rewrite (compare_step_eq _ _ _ _ _ _ _ Hd).
  destruct (distance_to cs "Euclidean" x k) as [e |] eqn:He;
    [| intros [= <-]; by eapply distance_to_Raise].
  destruct (distance_to cs "Manhattan" x k) as [m |] eqn:Hm;
    [| intros [= <-]; by eapply distance_to_Raise].
  destruct (distance_to cs "Cosine" x k) as [c |] eqn:Hc;
    [done | intros [= <-]; by eapply distance_to_Raise].
Qed.

Lemma compare_all_Raise cs x ex :
  (∀ c, c ∈ CLASSES → is_Some (cs !! c)) →
  for_in CLASSES (compare_step cs x) empty_dists = Raise ex → ex = ValueError.
Proof.
  intros Hcs. unfold CLASSES. cbn [for_in].
  destruct (compare_step cs x "pizza_slice" empty_dists) as [d1 |] eqn:H1; cycle 1.
  { intros [= <-]. eapply compare_step_Raise; [apply dists_are_empty | | done].
    apply Hcs, elem_of_CLASSES. auto. }
  destruct (compare_step_Ok _ _ _ _ _ _ _ _ dists_are_empty H1) as (? & ? & ? & _ & _ & _ & Hd1).
  cbn [mbind result_bind].
  destruct (compare_step cs x "whole_pizza" d1) as [d2 |] eqn:H2; cycle 1.
  { intros [= <-]. eapply compare_step_Raise; [apply Hd1 | | done].
    apply Hcs, elem_of_CLASSES. auto. }
  destruct (compare_step_Ok _ _ _ _ _ _ _ _ Hd1 H2) as (? & ? & ? & _ & _ & _ & Hd2).
  cbn [mbind result_bind].
  destruct (compare_step cs x "pizza_box" d2) as [d3 |] eqn:H3; [done |].
  intros [= <-]. eapply compare_step_Raise; [apply Hd2 | | done].
  apply Hcs, elem_of_CLASSES. auto.
Qed.

Lemma compare_all_total cs x :
  (∀ c, c ∈ CLASSES → ∃ mu, cs !! c = Some mu ∧ len x = len mu) →
  is_ok (for_in CLASSES (compare_step cs x) empty_dists).
Proof.
  intros Hcs.
  assert (∀ metric c, c ∈ CLASSES → is_ok (distance_to cs metric x c)) as Hdist.
  { intros metric c (mu & Hmu & E)%Hcs. unfold distance_to.
    rewrite (proj2 (getitem_Ok cs c mu) Hmu). by apply distance_same_length. }
  assert (∀ c dists de dm dc, c ∈ CLASSES → dists_are dists de dm dc →
            ∃ dists' de' dm' dc', compare_step cs x c dists = Ok dists'
                                  ∧ dists_are dists' de' dm' dc') as Hstep.
  { intros c dists de dm dc Hc Hd.
    destruct (Hdist "Euclidean" c Hc) as [e He].
    destruct (Hdist "Manhattan" c Hc) as [m Hm].
    destruct (Hdist "Cosine" c Hc) as [v Hv].
    pose proof (compare_step_eq cs x c _ _ _ _ Hd) as Heq.
    rewrite He, Hm, Hv in Heq. cbn [mbind result_bind mret result_ret] in Heq.
    destruct (compare_step_Ok _ _ _ _ _ _ _ _ Hd Heq) as (? & ? & ? & _ & _ & _ & Hd').
    eauto 10. }
  unfold CLASSES. cbn [for_in].
  destruct (Hstep "pizza_slice" _ _ _ _ ltac:(apply elem_of_CLASSES; auto) dists_are_empty)
    as (d1 & ? & ? & ? & -> & Hd1). cbn [mbind result_bind].
  destruct (Hstep "whole_pizza" _ _ _ _ ltac:(apply elem_of_CLASSES; auto) Hd1)
    as (d2 & ? & ? & ? & -> & Hd2). cbn [mbind result_bind].
  destruct (Hstep "pizza_box" _ _ _ _ ltac:(apply elem_of_CLASSES; auto) Hd2)
    as (d3 & ? & ? & ? & -> & Hd3). cbn [mbind result_bind].
  by eexists.
Qed.

(** Once the distances are there, the line is. *)
Lemma make_row_after_compare cs t entry x dists :
  np_load entry.2 = Ok x →
  for_in CLASSES (compare_step cs x) empty_dists = Ok dists →
  ∃ de dm dc r,
    is_table cs "Euclidean" x de ∧ is_table cs "Manhattan" x dm ∧
    is_table cs "Cosine" x dc ∧
    make_row cs t entry = Ok r ∧
    Image r = entry.1 ∧ True_Class r = t ∧
    argmin de = Ok (Pred_E r) ∧ argmin dm = Ok (Pred_M r) ∧ argmin dc = Ok (Pred_C r).
Proof.
  intros Hx Hcmp. unfold make_row. rewrite Hx. cbn [mbind result_bind].
  rewrite Hcmp. cbn [mbind result_bind].
  destruct (compare_all cs x dists Hcmp) as (de & dm & dc & (He & Hm & Hc) & Te & Tm & Tc).
  destruct (is_table_argmin _ _ _ _ Te) as (pe & Hpe & Hpe').
  destruct (is_table_argmin _ _ _ _ Tm) as (pm & Hpm & Hpm').
  destruct (is_table_argmin _ _ _ _ Tc) as (pc & Hpc & Hpc').
  rewrite (proj2 (getitem_Ok dists "Euclidean" de) He).
  rewrite (proj2 (getitem_Ok dists "Manhattan" dm) Hm).
  rewrite (proj2 (getitem_Ok dists "Cosine" dc) Hc).
  cbn [mbind result_bind]. rewrite Hpe, Hpm, Hpc. cbn [mbind result_bind].
  exists de, dm, dc.
  pose proof Te as (e1 & e2 & e3 & Ee)%is_table_inv.
  pose proof Tc as (c1 & c2 & c3 & Ec)%is_table_inv.
  subst de dc.
  eexists. split_and!; [done | done | done | reflexivity | done..].
Qed.

Lemma make_row_Raise cs t entry ex :
  (∀ c, c ∈ CLASSES → is_Some (cs !! c)) →
  make_row cs t entry = Raise ex → ex = ValueError.
Proof.
  intros Hcs Hrow. destruct (np_load entry.2) as [x |] eqn:Hx; cycle 1.
  { destruct entry as [filename [a |]]; [done |].
    unfold make_row in Hrow. by injection Hrow as <-. }
  destruct (for_in CLASSES (compare_step cs x) empty_dists) as [dists |] eqn:Hcmp.
  - destruct (make_row_after_compare cs t entry x dists Hx Hcmp)
      as (? & ? & ? & r & _ & _ & _ & Hr & _). congruence.
  - unfold make_row in Hrow. rewrite Hx in Hrow. cbn [mbind result_bind] in Hrow.
    rewrite Hcmp in Hrow. injection Hrow as <-. by eapply compare_all_Raise.
Qed.

Lemma make_row_total cs t entry x :
  entry.2 = Npy x →
  (∀ c, c ∈ CLASSES → ∃ mu, cs !! c = Some mu ∧ len x = len mu) →
  is_ok (make_row cs t entry).
Proof.
  intros Hx Hcs. destruct (compare_all_total cs x Hcs) as [dists Hcmp].
  destruct (make_row_after_compare cs t entry x dists) as (? & ? & ? & r & _ & _ & _ & Hr & _);
    [by rewrite Hx | done | by exists r].
Qed.

End error_facts.


(** * The whole run *)

Section run_facts.
Import Numpy Distance Evaluate EvaluateSpec.

Lemma mapM_Ok_fmap {A B} (f : A → result B) (g : A → B) (l : list A) :
  (∀ a, a ∈ l → f a = Ok (g a)) → mapM f l = Ok (g <$> l).
Proof.
  induction l as [| a l IH]; intros Hf; [done |].
  cbn. rewrite Hf by left. cbn. rewrite IH; [done |].
  intros a' Ha'. apply Hf. by right.
Qed.

Lemma mapM_Ok_Forall2 {A B} (f : A → result B) (l : list A) (k : list B) :
  mapM f l = Ok k → Forall2 (λ a b, f a = Ok b) l k.
Proof.
  revert k. induction l as [| a l IH]; intros k; cbn.
  - intros [= <-]. constructor.
  - destruct (f a) as [b |] eqn:Hb; [| done]. cbn.
    destruct (mapM f l) as [k' |]; [| done]. cbn. intros [= <-].
    constructor; [done | by apply IH].
Qed.

Lemma mapM_Raise_elem {A B} (f : A → result B) (l : list A) ex :
  mapM f l = Raise ex → ∃ a, a ∈ l ∧ f a = Raise ex.
Proof.
  induction l as [| a l IH]; cbn; [done |].
  destruct (f a) as [b |] eqn:Hb; cbn.
  - destruct (mapM f l) as [k' |]; cbn; [done |]. intros [= <-].
    destruct IH as (a' & Ha' & Hfa'); [done |]. exists a'. split; [by right | done].
  - intros [= <-]. exists a. split; [by left | done].
Qed.

Lemma mapM_is_ok {A B} (f : A → result B) (l : list A) :
  (∀ a, a ∈ l → is_ok (f a)) → is_ok (mapM f l).
Proof.
  induction l as [| a l IH]; intros Hf; [by eexists |].
  cbn. destruct (Hf a) as [b ->]; [by left |]. cbn.
  destruct IH as [k ->]; [intros a' Ha'; apply Hf; by right |]. by eexists.
Qed.


(** ** Loading the centroids *)

Lemma load_centroids_inr e l acc cs :
  load_centroids e l acc = inr cs →
  (∀ c, c ∈ l → is_Some (cs !! c)) ∧ (∀ c, is_Some (acc !! c) → is_Some (cs !! c)).
Proof.
  revert acc. induction l as [| c l IH]; intros acc; cbn.
  - intros [= <-]. split; [| done]. intros c []%elem_of_nil.
  - destruct (centroid_files e !! centroid_path c) as [a |]; [| done].
    intros [Hl Hacc]%IH. split.
    + intros c' [-> | Hc']%elem_of_cons; [| by apply Hl].
      apply Hacc. by rewrite lookup_insert_eq.
    + intros c' Hc'. apply Hacc. rewrite lookup_insert. case_decide; [done | done].
Qed.


(** ** Saving the files *)

Lemma confusion_table_state_of rs m :
  m ∈ METRICS → confusion_table (state_of rs) m = Ok (table_of rs m).
Proof.
  intros Hm. unfold confusion_table, state_of, cm_of. cbn [confusion_matrices].
  rewrite getitem_tab by done. cbn [mbind result_bind].
  rewrite (mapM_Ok_fmap _ (λ t, (t, (λ p, cell_count rs m t p) <$> CLASSES))); [done |].
  intros t Ht. unfold confusion_line. rewrite getitem_tab by done.
  cbn [mbind result_bind].
  rewrite (mapM_Ok_fmap _ (λ p, cell_count rs m t p)); [done |].
  intros p Hp. by rewrite getitem_tab.
Qed.

Lemma summary_line_state_of rs m :
  m ∈ METRICS → rs ≠ [] → summary_line (state_of rs) m = Ok (summary_of rs m).
Proof.
  intros Hm Hrs. unfold summary_line, state_of. cbn [correct_counts total_images].
  rewrite getitem_tab by done. cbn [mbind result_bind].
  unfold py_truediv. rewrite decide_False; [done |].
  by destruct rs.
Qed.

Lemma save_files_state_of rs :
  save_files (state_of rs)
  = match rs with [] => Raise IndexError | _ :: _ => Ok (report_of rs) end.
Proof.
  destruct rs as [| r rs]; [done |]. unfold save_files.
  change (first_result (results (state_of (r :: rs)))) with (Ok r).
  cbn [mbind result_bind].
  rewrite (mapM_Ok_fmap _ (table_of (r :: rs)))
    by (intros m Hm; by apply confusion_table_state_of).
  cbn [mbind result_bind].
  rewrite (mapM_Ok_fmap _ (summary_of (r :: rs)))
    by (intros m Hm; by apply summary_line_state_of).
  done.
Qed.

Lemma run_evaluation_spec e cs :
  load_centroids e CLASSES ∅ = inr cs →
  run_evaluation e
  = match rows_of e cs with
    | Ok [] => Uncaught IndexError
    | Ok (r :: rs) => Finished (report_of (r :: rs))
    | Raise ex => Uncaught ex
    end.
Proof.
  intros Hcs. unfold run_evaluation. rewrite Hcs, evaluation_loop_spec.
  destruct (rows_of e cs) as [rs |]; [| done].
  cbn [mbind result_bind mret result_ret]. rewrite save_files_state_of.
  by destruct rs.
Qed.

End run_facts.


(** * Lines, counts and their sums *)

Section count_facts.
Import Numpy Distance Evaluate EvaluateSpec.

Lemma make_row_Ok_inv cs t entry r :
  make_row cs t entry = Ok r →
  ∃ x de dm dc,
    np_load entry.2 = Ok x ∧
    is_table cs "Euclidean" x de ∧ is_table cs "Manhattan" x dm ∧
    is_table cs "Cosine" x dc ∧
    Image r = entry.1 ∧ True_Class r = t ∧
    argmin de = Ok (Pred_E r) ∧ argmin dm = Ok (Pred_M r) ∧ argmin dc = Ok (Pred_C r).
Proof.
  intros Hr. pose proof Hr as Hr'. unfold make_row in Hr'.
  apply bind_Ok in Hr' as (x & Hx & Hr').
  apply bind_Ok in Hr' as (dists & Hcmp & _).
  destruct (make_row_after_compare cs t entry x dists Hx Hcmp)
    as (de & dm & dc & r' & Te & Tm & Tc & Hr'' & ?).
  assert (r' = r) as -> by congruence. by exists x, de, dm, dc.
Qed.

Lemma make_row_pred_in_CLASSES cs t entry r m :
  make_row cs t entry = Ok r → m ∈ METRICS → pred m r ∈ CLASSES.
Proof.
  intros (x & de & dm & dc & _ & Te & Tm & Tc & _ & _ & He & Hm & Hc)%make_row_Ok_inv.
  destruct (is_table_argmin _ _ _ _ Te) as (pe & Hpe & ?).
  destruct (is_table_argmin _ _ _ _ Tm) as (pm & Hpm & ?).
  destruct (is_table_argmin _ _ _ _ Tc) as (pc & Hpc & ?).
  intros [-> | [-> | ->]]%elem_of_METRICS; unfold pred; simpl; congruence.
Qed.


Lemma cell_count_cons r rs m t p :
  cell_count (r :: rs) m t p
  = (if decide (True_Class r = t ∧ pred m r = p) then 1 else 0) + cell_count rs m t p.
Proof. unfold cell_count. rewrite filter_cons. by case_decide. Qed.

Lemma cell_count_row_sum rs m t :
  Forall (λ r, pred m r ∈ CLASSES) rs →
  sum_list ((λ p, cell_count rs m t p) <$> CLASSES)
  = length (filter (λ r, True_Class r = t) rs).
Proof.
  induction 1 as [| r rs Hr _ IH]; [done |].
  rewrite filter_cons. unfold CLASSES in *. cbn [fmap list_fmap sum_list] in *.
  rewrite !cell_count_cons.
  apply elem_of_CLASSES in Hr as [Hr | [Hr | Hr]]; rewrite Hr;
    destruct (decide (True_Class r = t)) as [Ht | Ht];
    repeat case_decide; destruct_and?; try done;
    unfold Datatypes.id in *; cbn [length]; first [lia | count_contra].
Qed.

Lemma cell_count_total rs m :
  Forall (λ r, pred m r ∈ CLASSES) rs → Forall (λ r, True_Class r ∈ CLASSES) rs →
  sum_list ((λ t, sum_list ((λ p, cell_count rs m t p) <$> CLASSES)) <$> CLASSES)
  = length rs.
Proof.
  intros Hp Ht.
  rewrite (list_fmap_ext _ (λ t, length (filter (λ r, True_Class r = t) rs)) CLASSES)
    by (intros; by apply cell_count_row_sum).
  clear Hp. induction Ht as [| r rs Hr _ IH]; [done |].
  unfold CLASSES in *. cbn [fmap list_fmap sum_list] in *. rewrite !filter_cons.
  apply elem_of_CLASSES in Hr as [Hr | [Hr | Hr]]; rewrite Hr;
    repeat case_decide; try done; unfold Datatypes.id in *; cbn [length]; lia.
Qed.




(** The lines follow the samples. *)
Lemma rows_of_Forall2 e cs rs :
  rows_of e cs = Ok rs →
  Forall2 (λ s r, make_row cs s.1 s.2 = Ok r) (samples e) rs.
Proof. apply mapM_Ok_Forall2. Qed.

Lemma rows_true_class {A} (f : A → string) (P : A → row → Prop) l rs t :
  Forall2 P l rs → (∀ a r, P a r → True_Class r = f a) →
  length (filter (λ r, True_Class r = t) rs) = length (filter (λ a, f a = t) l).
Proof.
  intros Hl HP. induction Hl as [| a r l rs Har _ IH]; [done |].
  rewrite !filter_cons, (HP a r Har). case_decide; cbn [length]; by rewrite IH.
Qed.

Lemma filter_class_fmap {A} (c t : string) (l : list A) :
  filter (λ s, s.1 = t) ((λ a, (c, a)) <$> l)
  = if decide (c = t) then (λ a, (c, a)) <$> l else [].
Proof.
  induction l as [| a l IH]; [by case_decide |].
  rewrite fmap_cons, filter_cons, IH. cbn [fst]. by case_decide.
Qed.

Lemma samples_of_class e t :
  t ∈ CLASSES → length (filter (λ s, s.1 = t) (samples e)) = length (class_entries e t).
Proof.
  intros Ht. rewrite samples_unfold, !filter_app, !filter_class_fmap, !length_app.
  apply elem_of_CLASSES in Ht as [-> | [-> | ->]];
    repeat case_decide; try done; rewrite ?length_fmap; cbn [length]; lia.
Qed.

Lemma samples_class_in_CLASSES e : Forall (λ s, s.1 ∈ CLASSES) (samples e).
Proof.
  rewrite samples_unfold, !Forall_app, !Forall_fmap.
  split_and!; apply Forall_true; intros entry; apply elem_of_CLASSES; cbn; auto.
Qed.

(** ** Rearranged listings *)



End count_facts.


(** * The evaluation: the properties of the specification *)

Section evaluate_claims.
Import Numpy Distance Evaluate EvaluateSpec.

Lemma cell_state_of rs m t p :
  m ∈ METRICS → t ∈ CLASSES → p ∈ CLASSES →
  cell (state_of rs) m t p = Some (cell_count rs m t p).
Proof.
  intros Hm Ht Hp. unfold cell, state_of, cm_of. cbn [confusion_matrices].
  rewrite lookup_tab_Some by done. cbn [mbind option_bind].
  rewrite lookup_tab_Some by done. cbn [mbind option_bind].
  by rewrite lookup_tab_Some.
Qed.

Lemma rows_of_facts e cs rs :
  rows_of e cs = Ok rs →
  length rs = length (samples e) ∧
  (∀ m, m ∈ METRICS → Forall (λ r, pred m r ∈ CLASSES) rs) ∧
  Forall (λ r, True_Class r ∈ CLASSES) rs ∧
  (∀ t, length (filter (λ r, True_Class r = t) rs)
        = length (filter (λ s, s.1 = t) (samples e))).
Proof.
  intros Hrs%rows_of_Forall2. split_and!.
  - symmetry. by eapply Forall2_length.
  - intros m Hm. eapply Forall2_Forall_r; [exact Hrs |].
    apply Forall_true. intros s r Hr. by eapply make_row_pred_in_CLASSES.
  - eapply Forall2_Forall_r; [exact Hrs |].
    eapply Forall_impl; [apply samples_class_in_CLASSES |].
    intros s Hs r (_ & _ & _ & _ & _ & _ & _ & _ & _ & -> & _)%make_row_Ok_inv. done.
  - intros t. apply (rows_true_class fst _ _ _ _ Hrs).
    intros s r (_ & _ & _ & _ & _ & _ & _ & _ & _ & -> & _)%make_row_Ok_inv. done.
Qed.



(** C4: with every centroid in place and no test vector at all,
    [run_evaluation] stops at [results[0]] with an [IndexError] that nothing
    catches; the accuracy is not reached. *)
Theorem run_evaluation_no_test_samples (e : env) (cs : gmap string ndarray) :
  load_centroids e CLASSES ∅ = inr cs → samples e = [] →
  run_evaluation e = Uncaught IndexError.
Proof.
  intros Hcs Hs. rewrite (run_evaluation_spec e cs Hcs).
  unfold rows_of. by rewrite Hs.
Qed.

(** The division of the accuracy never sees a zero total: a run that gets
    to it has processed a test vector. *)
Lemma accuracy_division_guarded (e : env) :
  run_evaluation e ≠ Uncaught ZeroDivisionError ∧
  ∀ rep, run_evaluation e = Finished rep → 0 < summary_total rep.
Proof.
  destruct (load_centroids e CLASSES ∅) as [c | cs] eqn:Hcs.
  { unfold run_evaluation. rewrite Hcs. done. }
  rewrite (run_evaluation_spec e cs Hcs).
  destruct (rows_of e cs) as [[| r rs] | ex] eqn:Hrows; [done | |].
  - split; [done |]. intros rep [= <-]. cbn. lia.
  - split; [| done]. intros [= ->].
    apply mapM_Raise_elem in Hrows as (s & _ & Hs).
    apply make_row_Raise in Hs; [done |].
    by apply (load_centroids_inr e CLASSES ∅ cs).
Qed.

(** C6: every cell starts at zero; after the loops, for every metric, each
    cell holds the number of test files with that true class and that
    prediction, a row adds up to the number of test files of its true
    class, all cells add up to [total_images], and [correct_counts] holds
    the number of files predicted as their true class. Each file adds one
    to exactly one cell per metric, and one to the correct count exactly
    when the prediction is the true class. *)
Theorem confusion_matrix_invariants (e : env) (cs : gmap string ndarray) (st : state) :
  evaluation_loop e cs = Ok st →
  (∀ m t p, m ∈ METRICS → t ∈ CLASSES → p ∈ CLASSES →
     cell initial_state m t p = Some 0) ∧
  total_images st = length (samples e) ∧
  length (results st) = total_images st ∧
  (∀ m, m ∈ METRICS →
     (∀ t p, t ∈ CLASSES → p ∈ CLASSES →
        cell st m t p = Some (cell_count (results st) m t p)) ∧
     (∀ t, t ∈ CLASSES → row_sum st m t = length (class_entries e t)) ∧
     grand_total st m = total_images st ∧
     correct_counts st !! m = Some (correct_count (results st) m)) ∧
  (∀ t entry rs st',
     t ∈ CLASSES → process_file cs t entry (state_of rs) = Ok st' →
     ∃ r, st' = state_of (rs ++ [r]) ∧ True_Class r = t ∧
       ∀ m t' p',
         cell_count (rs ++ [r]) m t' p'
         = cell_count rs m t' p' + (if decide (t' = t ∧ p' = pred m r) then 1 else 0) ∧
         correct_count (rs ++ [r]) m
         = correct_count rs m + (if decide (pred m r = t) then 1 else 0)).
Proof.
  rewrite evaluation_loop_spec. intros (rs & Hrs & [= <-])%bind_Ok.
  destruct (rows_of_facts e cs rs Hrs) as (Hlen & Hpred & Htrue & Hclass).
  split_and!.
  - intros m t p Hm Ht Hp. rewrite initial_state_of. by rewrite cell_state_of.
  - done.
  - done.
  - intros m Hm.
    assert (∀ t p, t ∈ CLASSES → p ∈ CLASSES →
              cell_value (state_of rs) m t p = cell_count rs m t p) as Hval.
    { intros t p Ht Hp. unfold cell_value. by rewrite cell_state_of. }
    assert (∀ t, t ∈ CLASSES →
              row_sum (state_of rs) m t = length (filter (λ r, True_Class r = t) rs))
      as Hrow.
    { intros t Ht. rewrite <- (cell_count_row_sum rs m t) by auto.
      unfold row_sum. f_equal.
      apply list_fmap_ext. intros _ p Hp%list_elem_of_lookup_2. by apply Hval. }
    split_and!.
    + intros t p Ht Hp. by apply cell_state_of.
    + intros t Ht. by rewrite Hrow, Hclass, samples_of_class.
    + unfold grand_total. cbn [total_images state_of].
      rewrite <- (cell_count_total rs m) by auto. f_equal.
      apply list_fmap_ext. intros _ t Ht%list_elem_of_lookup_2.
      rewrite Hrow by done. symmetry. apply cell_count_row_sum. auto.
    + cbn [correct_counts state_of results]. by apply lookup_tab_Some.
  - intros t entry rs0 st' Ht. rewrite process_file_spec by done.
    intros (r & Hr & [= <-])%bind_Ok. exists r.
    apply make_row_Ok_inv in Hr as (_ & _ & _ & _ & _ & _ & _ & _ & _ & Hr & _).
    split_and!; [done.. |]. intros m t' p'.
    rewrite cell_count_snoc, correct_count_snoc, Hr. split.
    + f_equal. repeat case_decide; first [done | count_contra].
    + done.
Qed.






End evaluate_claims.


(** * The dataset splitter *)

Section split_facts.
Import Split.

(** ** The shuffle *)

Lemma insert_swap_head {A} (t : list A) (j : nat) (h b : A) :
  t !! j = Some b → b :: <[j := h]> t ≡ₚ h :: t.
Proof.
  revert j. induction t as [| c t IH]; intros [| j] Hj; try done.
  - injection Hj as ->. apply Permutation_swap.
  - cbn in Hj. cbn [insert list_insert].
    rewrite (Permutation_swap c b), (IH j Hj). apply Permutation_swap.
Qed.

Lemma swap_perm {A} (i j : nat) (x : list A) : swap i j x ≡ₚ x.
Proof.
  unfold swap. destruct (x !! i) as [xi |] eqn:Hi; [| done].
  destruct (x !! j) as [xj |] eqn:Hj; [| done].
  revert i j Hi Hj. induction x as [| h t IH]; intros [| i] [| j] Hi Hj; try done.
  - injection Hi as ->. injection Hj as ->. done.
  - injection Hi as ->. cbn in Hj. cbn [insert list_insert].
    by apply insert_swap_head.
  - injection Hj as ->. cbn in Hi. cbn [insert list_insert].
    by apply insert_swap_head.
  - cbn in Hi, Hj. cbn [insert list_insert]. f_equiv. by apply IH.
Qed.

Lemma shuffle_from_perm {A} (n : nat) (x : list A) (g : rng) :
  (shuffle_from n x g).1 ≡ₚ x.
Proof.
  revert x g. induction n as [| n IH]; intros x g; [done |].
  cbn [shuffle_from]. destruct (randbelow (S n + 1) g) as [j g'].
  by rewrite IH, swap_perm.
Qed.


(** ** The split of a file list *)


Lemma image_files_NoDup (dir : gmap string content) : NoDup (image_files dir).
Proof. apply NoDup_filter, NoDup_fst_map_to_list. Qed.


(** ** Paths *)






(** ** The file system operations *)





End split_facts.


Section split_run_facts.
Import Split.









End split_run_facts.


(** * The dataset splitter: the properties of the specification *)

Section split_claims.
Import Split.








End split_claims.


(** * The properties at concrete inputs *)

Section split_examples.
Import Split Examples.






End split_examples.

Section centroid_examples.
Import Numpy Centroid Examples.

Lemma centroid_is_mean_witness :
  ∃ c, np_mean_axis0 (Matrix 2 [[0; 2]; [2; 4]]%Z) = Ok c ∧ length c = 2 ∧
       c !! 0 = Some (column_mean (Matrix 2 [[0; 2]; [2; 4]]%Z) 0).
Proof.
  destruct (centroid_is_mean two_rows (State ∅ ∅ []) "pizza_slice"
              (Matrix 2 [[0; 2]; [2; 4]]%Z))
    as (c & Hc & Hlen & Hmean & _).
  - unfold CLASSES. by left.
  - apply lookup_singleton_eq.
  - repeat constructor.
  - cbn. lia.
  - exists c. split_and!; [done | done |]. apply Hmean. cbn. lia.
Defined.

End centroid_examples.

Section evaluate_examples.
Import Numpy Distance Evaluate EvaluateSpec Examples.

Lemma rows_of_total e cs :
  (∀ s, s ∈ samples e →
     ∃ x, s.2.2 = Npy x ∧ ∀ c, c ∈ CLASSES → ∃ mu, cs !! c = Some mu ∧ len x = len mu) →
  is_ok (rows_of e cs).
Proof.
  intros Hs. apply mapM_is_ok. intros s (x & Hx & Hcs)%Hs.
  by apply make_row_total with (x := x).
Qed.

Lemma evaluation_loop_total e cs :
  (∀ s, s ∈ samples e →
     ∃ x, s.2.2 = Npy x ∧ ∀ c, c ∈ CLASSES → ∃ mu, cs !! c = Some mu ∧ len x = len mu) →
  is_ok (evaluation_loop e cs).
Proof.
  intros [rs Hrs]%rows_of_total. rewrite evaluation_loop_spec, Hrs. by eexists.
Qed.

Lemma load_centroid_store : load_centroids two_tests CLASSES ∅ = inr loaded_centroids.
Proof. reflexivity. Qed.

Lemma samples_two_tests :
  samples two_tests
  = [("pizza_slice", ("test_pizza_slice_0.npy", Npy (U8 [0; 0]%Z)));
     ("pizza_slice", ("test_pizza_slice_1.npy", Npy (U8 [3; 4]%Z)))].
Proof. reflexivity. Qed.

Lemma two_tests_well_shaped s :
  s ∈ samples two_tests →
  ∃ x, s.2.2 = Npy x ∧
       ∀ c, c ∈ CLASSES → ∃ mu, loaded_centroids !! c = Some mu ∧ len x = len mu.
Proof.
  rewrite samples_two_tests, !elem_of_cons, elem_of_nil.
  intros [-> | [-> | []]]; eexists; (split; [reflexivity |]);
    intros c [-> | [-> | ->]]%elem_of_CLASSES; eexists; split; reflexivity.
Qed.

Lemma run_evaluation_no_test_samples_witness :
  run_evaluation no_tests = Uncaught IndexError.
Proof.
  apply (run_evaluation_no_test_samples no_tests loaded_centroids); reflexivity.
Defined.

Lemma confusion_matrix_invariants_witness :
  ∃ st, evaluation_loop two_tests loaded_centroids = Ok st ∧
        total_images st = 2 ∧
        row_sum st "Euclidean" "pizza_slice" = 2 ∧
        row_sum st "Euclidean" "pizza_box" = 0 ∧
        grand_total st "Cosine" = 2.
Proof.
  destruct (evaluation_loop_total two_tests loaded_centroids two_tests_well_shaped)
    as [st Hst].
  destruct (confusion_matrix_invariants two_tests loaded_centroids st Hst)
    as (_ & Htotal & _ & Hm & _).
  exists st. split; [done |]. split; [by rewrite Htotal |].
  destruct (Hm "Euclidean") as (_ & Hrow & _); [apply elem_of_METRICS; auto |].
  destruct (Hm "Cosine") as (_ & _ & Hgrand & _); [apply elem_of_METRICS; auto |].
  split_and!.
  - rewrite Hrow by (apply elem_of_CLASSES; auto). reflexivity.
  - rewrite Hrow by (apply elem_of_CLASSES; auto). reflexivity.
  - by rewrite Hgrand, Htotal.
Defined.



End evaluate_examples.


(** * More on the evaluation run *)

Section evaluate_more.
Import Numpy Distance Evaluate EvaluateSpec.

(** ** Loading the centroids *)




Lemma load_centroids_agree e e' l acc :
  (∀ c, c ∈ l → centroid_files e !! centroid_path c
                 = centroid_files e' !! centroid_path c) →
  load_centroids e l acc = load_centroids e' l acc.
Proof.
  revert acc. induction l as [| k l IH]; intros acc Hl; cbn [load_centroids]; [done |].
  rewrite <- (Hl k) by left.
  destruct (centroid_files e !! centroid_path k); [| done].
  apply IH. intros c Hc. apply Hl. by right.
Qed.


(** ** When the run finishes *)

Lemma distance_to_cosine_len cs x k v :
  distance_to cs "Cosine" x k = Ok v → ∃ mu, cs !! k = Some mu ∧ len x = len mu.
Proof.
  unfold distance_to, getitem. destruct (cs !! k) as [mu |]; [| done].
  cbn [mbind result_bind]. change (distance "Cosine" x mu) with (d_cosine x mu).
  intros Hv. exists mu. split; [done |].
  unfold d_cosine, np_dot in Hv. by destruct (decide (len x = len mu)).
Qed.



Lemma rows_of_nil_iff e cs : rows_of e cs = Ok [] ↔ samples e = [].
Proof.
  split.
  - intros Hrs%rows_of_Forall2. by apply Forall2_nil_inv_r in Hrs.
  - intros Hs. unfold rows_of. by rewrite Hs.
Qed.



(** ** The report *)

Lemma correct_count_cons r rs m :
  correct_count (r :: rs) m
  = (if decide (pred m r = True_Class r) then 1 else 0) + correct_count rs m.
Proof. unfold correct_count. rewrite filter_cons. by case_decide. Qed.

Lemma correct_count_diagonal rs m :
  Forall (λ r, True_Class r ∈ CLASSES) rs →
  correct_count rs m = sum_list ((λ t, cell_count rs m t t) <$> CLASSES).
Proof.
  induction 1 as [| r rs Hr _ IH]; [done |].
  unfold CLASSES in *. cbn [fmap list_fmap sum_list] in *.
  rewrite correct_count_cons, !cell_count_cons, IH.
  apply elem_of_CLASSES in Hr as [Hr | [Hr | Hr]]; rewrite Hr;
    repeat case_decide; destruct_and?; try done;
    unfold Datatypes.id in *; first [lia | count_contra | congruence].
Qed.

Lemma correct_count_le rs m : correct_count rs m ≤ length rs.
Proof. apply length_filter. Qed.

Lemma percentage_bounds (n t : nat) :
  n ≤ t → 0 < t → (0 <= INR n / INR t * 100 <= 100)%R.
Proof.
  intros Hn Ht. apply le_INR in Hn. pose proof (pos_INR n) as Hn0.
  assert (0 < INR t)%R as Ht' by (apply (lt_INR 0); lia).
  assert (0 <= INR n / INR t <= 1)%R as [? ?]; [| lra].
  split.
  - apply Rmult_le_pos; [done |]. left. by apply Rinv_0_lt_compat.
  - apply (Rmult_le_reg_r (INR t)); [done |].
    unfold Rdiv. rewrite Rmult_assoc, Rinv_l by lra. lra.
Qed.

Lemma run_evaluation_Finished_inv e rep :
  run_evaluation e = Finished rep →
  ∃ cs r rs, load_centroids e CLASSES ∅ = inr cs ∧ rows_of e cs = Ok (r :: rs) ∧
             rep = report_of (r :: rs).
Proof.
  destruct (load_centroids e CLASSES ∅) as [c | cs] eqn:Hcs.
  { unfold run_evaluation. by rewrite Hcs. }
  rewrite (run_evaluation_spec e cs Hcs).
  destruct (rows_of e cs) as [[| r rs] | ex] eqn:Hrows; [done | | done].
  intros [= <-]. by exists cs, r, rs.
Qed.

(** X3: in a report, the accuracy of a metric is 100 times the number of
    lines predicted as their true class over the number of lines; that
    number is the sum of the diagonal of the metric's confusion matrix and
    at most the number of lines, so the accuracy lies between 0 and 100. *)
Theorem accuracy_summary (e : env) (rep : report) :
  run_evaluation e = Finished rep →
  detailed_predictions rep ≠ [] ∧
  summary_total rep = length (detailed_predictions rep) ∧
  summary_total rep = length (samples e) ∧
  confusion_tables rep = table_of (detailed_predictions rep) <$> METRICS ∧
  summary rep
  = (λ m, (m, (INR (correct_count (detailed_predictions rep) m)
                / INR (summary_total rep) * 100)%R,
           correct_count (detailed_predictions rep) m)) <$> METRICS ∧
  ∀ m, m ∈ METRICS →
    correct_count (detailed_predictions rep) m
    = sum_list ((λ t, cell_count (detailed_predictions rep) m t t) <$> CLASSES) ∧
    correct_count (detailed_predictions rep) m ≤ summary_total rep ∧
    (0 <= INR (correct_count (detailed_predictions rep) m)
          / INR (summary_total rep) * 100 <= 100)%R.
Proof.
  intros (cs & r & rs & Hcs & Hrows & ->)%run_evaluation_Finished_inv.
  destruct (rows_of_facts e cs _ Hrows) as (Hlen & _ & Htrue & _).
  unfold report_of. cbn [detailed_predictions summary_total confusion_tables summary].
  repeat (split; [done |]). intros m Hm. split; [| split].
  - by apply correct_count_diagonal.
  - apply correct_count_le.
  - apply percentage_bounds; [apply correct_count_le | cbn; lia].
Qed.

(** X4: the detailed report has one line per test file, in the order the
    loops visit them, with the name of the file, the class of its
    directory, and for each metric a prediction among [CLASSES]. *)
Theorem detailed_report_lines (e : env) (rep : report) :
  run_evaluation e = Finished rep →
  Forall2 (λ s r, Image r = s.2.1 ∧ True_Class r = s.1 ∧
                  ∀ m, m ∈ METRICS → pred m r ∈ CLASSES)
          (samples e) (detailed_predictions rep).
Proof.
  intros (cs & r & rs & Hcs & Hrows & ->)%run_evaluation_Finished_inv.
  unfold report_of. cbn [detailed_predictions]. apply rows_of_Forall2 in Hrows.
  eapply Forall2_impl; [exact Hrows |]. intros s r' Hr. cbn beta in Hr.
  pose proof (make_row_Ok_inv _ _ _ _ Hr)
    as (_ & _ & _ & _ & _ & _ & _ & _ & Himage & Hclass & _).
  split; [done |]. split; [done |].
  intros m Hm. by eapply make_row_pred_in_CLASSES.
Qed.

(** X5: the outcome depends on the three centroid files and on the [.npy]
    entries of the three class directories only: two environments that
    agree on these give the same outcome, whatever else they hold. *)
Theorem run_evaluation_inputs (e e' : env) :
  (∀ c, c ∈ CLASSES →
     centroid_files e !! centroid_path c = centroid_files e' !! centroid_path c) →
  (∀ c, c ∈ CLASSES → class_entries e c = class_entries e' c) →
  run_evaluation e = run_evaluation e'.
Proof.
  intros Hfiles Hentries.
  pose proof (load_centroids_agree e e' CLASSES ∅ Hfiles) as Hload.
  assert (samples e = samples e') as Hs.
  { rewrite !samples_unfold, !Hentries by (apply elem_of_CLASSES; auto). done. }
  destruct (load_centroids e CLASSES ∅) as [c | cs] eqn:Hcs.
  - unfold run_evaluation. by rewrite <- Hload, Hcs.
  - rewrite (run_evaluation_spec e cs Hcs), (run_evaluation_spec e' cs) by done.
    unfold rows_of. by rewrite Hs.
Qed.

End evaluate_more.


(** * More on the distances *)

Section distance_more.
Import Numpy Distance.
Local Open Scope R_scope.







(** ** The triangle inequality *)









End distance_more.


(** * The lines of the detailed report *)

Section report_lines.
Import Numpy Distance Evaluate EvaluateSpec.
Local Open Scope R_scope.



Lemma is_table_entries cs metric x v1 v2 v3 :
  is_table cs metric x [("pizza_slice", v1); ("whole_pizza", v2); ("pizza_box", v3)] →
  distance_to cs metric x "pizza_slice" = Ok v1 ∧
  distance_to cs metric x "whole_pizza" = Ok v2 ∧
  distance_to cs metric x "pizza_box" = Ok v3.
Proof.
  unfold is_table, CLASSES.
  intros ([_ H1] & ([_ H2] & ([_ H3] & _)%Forall2_cons)%Forall2_cons)%Forall2_cons.
  done.
Qed.

Lemma make_row_fields cs t entry r :
  make_row cs t entry = Ok r →
  ∃ x e1 e2 e3 m1 m2 m3 c1 c2 c3,
    np_load entry.2 = Ok x ∧
    is_table cs "Euclidean" x [("pizza_slice", e1); ("whole_pizza", e2); ("pizza_box", e3)] ∧
    is_table cs "Manhattan" x [("pizza_slice", m1); ("whole_pizza", m2); ("pizza_box", m3)] ∧
    is_table cs "Cosine" x [("pizza_slice", c1); ("whole_pizza", c2); ("pizza_box", c3)] ∧
    argmin [("pizza_slice", e1); ("whole_pizza", e2); ("pizza_box", e3)] = Ok (Pred_E r) ∧
    argmin [("pizza_slice", m1); ("whole_pizza", m2); ("pizza_box", m3)] = Ok (Pred_M r) ∧
    argmin [("pizza_slice", c1); ("whole_pizza", c2); ("pizza_box", c3)] = Ok (Pred_C r) ∧
    Dist_E_Slice r = py_round e1 2 ∧ Dist_E_Whole r = py_round e2 2 ∧
    Dist_E_Box r = py_round e3 2 ∧
    Dist_C_Slice r = py_round c1 4 ∧ Dist_C_Whole r = py_round c2 4 ∧
    Dist_C_Box r = py_round c3 4.
Proof.
  intros Hr. pose proof Hr as Hr'. unfold make_row in Hr'.
  apply bind_Ok in Hr' as (x & Hx & Hr').
  apply bind_Ok in Hr' as (dists & Hcmp & Hr').
  destruct (compare_all cs x dists Hcmp) as (de & dm & dc & (He & Hm & Hc) & Te & Tm & Tc).
  rewrite (proj2 (getitem_Ok dists "Euclidean" de) He) in Hr'.
  rewrite (proj2 (getitem_Ok dists "Manhattan" dm) Hm) in Hr'.
  rewrite (proj2 (getitem_Ok dists "Cosine" dc) Hc) in Hr'.
  cbn [mbind result_bind] in Hr'.
  apply bind_Ok in Hr' as (pe & Hpe & Hr').
  apply bind_Ok in Hr' as (pm & Hpm & Hr').
  apply bind_Ok in Hr' as (pc & Hpc & Hr').
  pose proof Te as (e1 & e2 & e3 & ->)%is_table_inv.
  pose proof Tm as (m1 & m2 & m3 & ->)%is_table_inv.
  pose proof Tc as (c1 & c2 & c3 & ->)%is_table_inv.
  injection Hr' as <-.
  exists x, e1, e2, e3, m1, m2, m3, c1, c2, c3. split_and!; done.
Qed.


(** X10: a test vector whose components are all zero has cosine distance
    1.0 to every centroid, so the three classes tie and the cosine
    prediction is always the first class, "pizza_slice". *)
Theorem zero_vector_cosine_prediction (cs : gmap string ndarray) (t : string)
    (entry : string * file) (x : ndarray) (rs : list row) (st' : state) :
  t ∈ CLASSES → np_load entry.2 = Ok x →
  Forall (λ v, v = 0) (astype_float x) →
  process_file cs t entry (state_of rs) = Ok st' →
  ∃ r, results st' = rs ++ [r] ∧ Pred_C r = "pizza_slice" ∧
       ∀ k, k ∈ CLASSES → distance_to cs "Cosine" x k = Ok 1.
Proof.
  intros Ht Hx Hzero. rewrite process_file_spec by done.
  intros (r & Hr & [= <-])%bind_Ok. exists r. split; [done |].
  destruct (make_row_fields cs t entry r Hr)
    as (x' & e1 & e2 & e3 & m1 & m2 & m3 & c1 & c2 & c3 & Hx' & _ & _ & Tc & _ & _ & Hpc & _).
  assert (x' = x) as -> by congruence.
  destruct (is_table_entries _ _ _ _ _ _ Tc) as (Hc1 & Hc2 & Hc3).
  assert (∀ k v, distance_to cs "Cosine" x k = Ok v → v = 1) as Hone.
  { intros k v Hv. destruct (distance_to_cosine_len _ _ _ _ Hv) as (mu & Hmu & E).
    unfold distance_to in Hv. rewrite (proj2 (getitem_Ok cs k mu) Hmu) in Hv.
    change (d_cosine x mu = Ok v) in Hv.
    rewrite d_cosine_zero_norm in Hv; [by injection Hv | done |].
    left. by apply np_linalg_norm_zeros. }
  pose proof (Hone _ _ Hc1) as ->. pose proof (Hone _ _ Hc2) as ->.
  pose proof (Hone _ _ Hc3) as ->. split.
  - unfold argmin, py_min in Hpc. cbn [foldl snd] in Hpc.
    assert (¬ 1 < 1) as Hirr by lra.
    rewrite !(decide_False _ _ Hirr) in Hpc. cbn [snd] in Hpc.
    rewrite ?(decide_False _ _ Hirr) in Hpc.
    cbn [fmap result_fmap fst] in Hpc. congruence.
  - by intros k [-> | [-> | ->]]%elem_of_CLASSES.
Qed.


End report_lines.


(** * Strings *)

Section string_facts.

Lemma string_length_app (s t : string) :
  String.length (s +:+ t) = String.length s + String.length t.
Proof. induction s as [| a s IH]; [done |]. exact (f_equal S IH). Qed.

Lemma string_app_inv_r (s1 s2 t : string) : s1 +:+ t = s2 +:+ t → s1 = s2.
Proof.
  revert s2. induction s1 as [| a s1 IH]; intros [| b s2] E; [done | | |].
  - apply (f_equal String.length) in E.
    rewrite !string_length_app in E. cbn in E. lia.
  - apply (f_equal String.length) in E.
    rewrite !string_length_app in E. cbn in E. lia.
  - cbn in E. injection E as -> E. f_equal. by apply IH.
Qed.

Lemma string_app_inv_l (p s1 s2 : string) : p +:+ s1 = p +:+ s2 → s1 = s2.
Proof.
  induction p as [| a p IH]; [done |]. intros E.
  change (String a (p +:+ s1) = String a (p +:+ s2)) in E.
  injection E as E. by apply IH.
Qed.

Lemma string_app_assoc (s t u : string) : (s +:+ t) +:+ u = s +:+ t +:+ u.
Proof. induction s as [| a s IH]; [done |]. exact (f_equal (String a) IH). Qed.

Lemma substring_0_length (s : string) : String.substring 0 (String.length s) s = s.
Proof. induction s as [| a s IH]; [done |]. exact (f_equal (String a) IH). Qed.

Lemma substring_app_r (p s : string) :
  String.substring (String.length p) (String.length s) (p +:+ s) = s.
Proof. induction p as [| a p IH]; [apply substring_0_length | done]. Qed.

Lemma substring_split (i k : nat) (s : string) :
  i + k = String.length s →
  s = String.substring 0 i s +:+ String.substring i k s.
Proof.
  revert i. induction s as [| a s IH]; intros [| i] E; cbn in *.
  - by destruct k.
  - lia.
  - subst k. by rewrite substring_0_length.
  - change (String a s = String a (String.substring 0 i s +:+ String.substring i k s)).
    f_equal. apply IH. lia.
Qed.

Lemma endswith_app (p suffix : string) : endswith (p +:+ suffix) suffix = true.
Proof.
  unfold endswith. rewrite string_length_app.
  rewrite bool_decide_eq_true_2 by lia.
  replace (String.length p + String.length suffix - String.length suffix)
    with (String.length p) by lia.
  rewrite substring_app_r. by rewrite bool_decide_eq_true_2.
Qed.

Lemma endswith_spec (s suffix : string) :
  endswith s suffix = true ↔ ∃ p, s = p +:+ suffix.
Proof.
  split.
  - unfold endswith. intros [Hlen Hsub]%andb_true_iff.
    apply bool_decide_eq_true in Hlen, Hsub.
    exists (String.substring 0 (String.length s - String.length suffix) s).
    etrans; [apply (substring_split (String.length s - String.length suffix)
                      (String.length suffix)); lia |].
    by rewrite Hsub.
  - intros [p ->]. apply endswith_app.
Qed.

End string_facts.

(** * More on the centroid calculator *)

Section centroid_more.
Import Numpy Centroid.

(** ** The three ways an iteration can go *)

Lemma centroid_step_missing mats st c :
  mats !! matrix_path c = None →
  centroid_step mats st c = (print ("[Error] Matrix not found for " +:+ c) st, None).
Proof. intros Hm. unfold centroid_step. by rewrite Hm. Qed.

Lemma centroid_step_good mats st c m v :
  mats !! matrix_path c = Some m → np_mean_axis0 m = Ok v →
  length v = 3072 →
  ∃ st', centroid_step mats st c = (st', None) ∧
         centroids st' = <[centroid_path c := F64 v]> (centroids st) ∧
         visuals st' = <[visual_path c := astype_uint8 <$> v]> (visuals st) ∧
         out st' = out st ++
           [newline +:+ "Class: " +:+ c;
            "  -> Calculated Mean Vector: (3072,)";
            "  -> Saved Visual Representation: Visual_" +:+ c +:+ ".png"].
Proof.
  intros Hm Hv Hlen. unfold centroid_step. rewrite Hm, Hv.
  rewrite decide_True by (rewrite Hlen; reflexivity).
  eexists. split; [reflexivity |]. cbn [centroids visuals out print].
  split_and!; [done | done |]. rewrite Hlen. by rewrite <- !app_assoc.
Qed.

Lemma centroid_step_bad_shape mats st c m v :
  mats !! matrix_path c = Some m → np_mean_axis0 m = Ok v →
  length v ≠ 3072 →
  centroid_step mats st c
  = (State (<[centroid_path c := F64 v]> (centroids st)) (visuals st) (out st),
     Some ValueError).
Proof.
  intros Hm Hv Hlen. unfold centroid_step. rewrite Hm, Hv.
  by rewrite decide_False.
Qed.

Lemma visual_path_inj c k : visual_path c = visual_path k → c = k.
Proof.
  unfold visual_path, os_path_join. intros E.
  do 3 apply string_app_inv_l in E. by apply string_app_inv_r in E.
Qed.

Lemma centroid_path_inj c k : centroid_path c = centroid_path k → c = k.
Proof.
  unfold centroid_path, os_path_join. intros E.
  do 3 apply string_app_inv_l in E. by apply string_app_inv_r in E.
Qed.

Lemma centroid_step_visual_other mats st c st' e p :
  p ≠ visual_path c → centroid_step mats st c = (st', e) →
  visuals st' !! p = visuals st !! p.
Proof.
  intros Hp. unfold centroid_step.
  destruct (mats !! matrix_path c) as [m |]; [| by intros [= <- <-]].
  destruct (np_mean_axis0 m) as [v |]; [| by intros [= <- <-]].
  case_decide; intros [= <- <-]; cbn [visuals print]; [| done].
  by apply lookup_insert_ne.
Qed.

Lemma for_each_app {A S} (body : S → A → S * option exn) (s : S) (l1 l2 : list A) :
  for_each body s (l1 ++ l2)
  = match for_each body s l1 with
    | (s', None) => for_each body s' l2
    | (s', Some e) => (s', Some e)
    end.
Proof.
  revert s. induction l1 as [| a l1 IH]; intros s; [done |].
  cbn [app for_each]. destruct (body s a) as [s1 [e |]]; [done | apply IH].
Qed.

(** The loop over classes whose matrices, where present, have at least one
    row and 3072 columns. *)
Lemma for_each_centroid_run mats l st :
  NoDup l →
  (∀ c m, c ∈ l → mats !! matrix_path c = Some m →
     wf_matrix m ∧ 1 ≤ length (rows m) ∧ ncols m = 3072) →
  ∃ st', for_each (centroid_step mats) st l = (st', None) ∧
    (∀ p, (∀ c, c ∈ l → is_Some (mats !! matrix_path c) → p ≠ centroid_path c) →
       centroids st' !! p = centroids st !! p) ∧
    (∀ p, (∀ c, c ∈ l → is_Some (mats !! matrix_path c) → p ≠ visual_path c) →
       visuals st' !! p = visuals st !! p) ∧
    (∀ c m, c ∈ l → mats !! matrix_path c = Some m →
       ∃ v, np_mean_axis0 m = Ok v ∧
            centroids st' !! centroid_path c = Some (F64 v) ∧
            visuals st' !! visual_path c = Some (astype_uint8 <$> v)) ∧
    (∀ c, c ∈ l → mats !! matrix_path c = None →
       "[Error] Matrix not found for " +:+ c ∈ out st') ∧
    (∀ line, line ∈ out st → line ∈ out st').
Proof.
  intros Hnd. revert st. induction Hnd as [| c l Hc Hnd IH]; intros st Hgood.
  { exists st. split; [done |]. split_and!; try done.
    - intros c m Hin. by apply elem_of_nil in Hin.
    - intros c Hin. by apply elem_of_nil in Hin. }
  assert (∀ c' m, c' ∈ l → mats !! matrix_path c' = Some m →
            wf_matrix m ∧ 1 ≤ length (rows m) ∧ ncols m = 3072) as Hgood'.
  { intros c' m Hin. apply Hgood. by right. }
  cbn [for_each]. destruct (mats !! matrix_path c) as [m |] eqn:Hm.
  - destruct (Hgood c m) as (Hwf & Hn & Hd); [by left | done |].
    destruct (np_mean_axis0_spec m Hwf Hn) as (v & Hv & Hlen & _).
    destruct (centroid_step_good mats st c m v Hm Hv) as (s1 & Hstep & Hc1 & Hv1 & Ho1);
      [congruence |].
    rewrite Hstep.
    destruct (IH s1 Hgood') as (st' & Hrun & Hfc & Hfv & Hsaved & Herr & Hout).
    exists st'. split; [done |]. split_and!.
    + intros p Hp. rewrite Hfc, Hc1.
      * apply lookup_insert_ne. intros E. by apply (Hp c); [left | rewrite Hm |].
      * intros c' Hin. apply Hp. by right.
    + intros p Hp. rewrite Hfv, Hv1.
      * apply lookup_insert_ne. intros E. by apply (Hp c); [left | rewrite Hm |].
      * intros c' Hin. apply Hp. by right.
    + intros c' m' [-> | Hin]%elem_of_cons Hm'; [| by apply Hsaved].
      assert (m' = m) as -> by congruence. exists v. split; [done |].
      rewrite Hfc, Hfv, Hc1, Hv1, !lookup_insert_eq; [done | |].
      * intros k Hk _ E. apply visual_path_inj in E as ->. done.
      * intros k Hk _ E. apply centroid_path_inj in E as ->. done.
    + intros c' [-> | Hin]%elem_of_cons Hm'; [congruence | by apply Herr].
    + intros line Hin. apply Hout. rewrite Ho1. apply elem_of_app. by left.
  - rewrite (centroid_step_missing mats st c Hm).
    destruct (IH (print ("[Error] Matrix not found for " +:+ c) st) Hgood')
      as (st' & Hrun & Hfc & Hfv & Hsaved & Herr & Hout).
    exists st'. split; [done |]. split_and!.
    + intros p Hp. rewrite Hfc; [done |]. intros c' Hin. apply Hp. by right.
    + intros p Hp. rewrite Hfv; [done |]. intros c' Hin. apply Hp. by right.
    + intros c' m' [-> | Hin]%elem_of_cons Hm'; [congruence | by apply Hsaved].
    + intros c' [-> | Hin]%elem_of_cons Hm'; [| by apply Herr].
      apply Hout. cbn [print out]. apply elem_of_app. right. by left.
    + intros line Hin. apply Hout. cbn [print out]. apply elem_of_app. by left.
Qed.

Lemma centroid_CLASSES_NoDup : NoDup CLASSES.
Proof. by apply (bool_decide_unpack (NoDup CLASSES)). Qed.

(** X11: when every class matrix that exists has at least one row and 3072
    columns, the script runs to its end without an exception; for each
    class with a matrix it saves the column means as the centroid and their
    truncation as the preview image, and for each class without one it
    prints the error line and leaves the centroid and the preview on disk
    as they were. *)
Theorem centroid_run_completes (mats : gmap string matrix) (st : state) :
  (∀ c m, c ∈ CLASSES → mats !! matrix_path c = Some m →
     wf_matrix m ∧ 1 ≤ length (rows m) ∧ ncols m = 3072) →
  ∃ st', calculate_and_visualize_centroids mats st = (st', None) ∧
    ∀ c, c ∈ CLASSES →
      match mats !! matrix_path c with
      | Some m =>
        ∃ v, length v = 3072 ∧
             (∀ i, i < 3072 → v !! i = Some (column_mean m i)) ∧
             centroids st' !! centroid_path c = Some (F64 v) ∧
             visuals st' !! visual_path c = Some (astype_uint8 <$> v)
      | None =>
        centroids st' !! centroid_path c = centroids st !! centroid_path c ∧
        visuals st' !! visual_path c = visuals st !! visual_path c ∧
        "[Error] Matrix not found for " +:+ c ∈ out st'
      end.
Proof.
  intros Hgood. unfold calculate_and_visualize_centroids.
  destruct (for_each_centroid_run mats CLASSES
              (print "--- Calculating Centroids (Mean Vectors) ---" st)
              centroid_CLASSES_NoDup Hgood)
    as (st' & Hrun & Hfc & Hfv & Hsaved & Herr & _).
  exists st'. split; [done |]. intros c Hc.
  destruct (mats !! matrix_path c) as [m |] eqn:Hm.
  - destruct (Hgood c m Hc Hm) as (Hwf & Hn & Hd).
    destruct (Hsaved c m Hc Hm) as (v & Hv & Hcv & Hvv).
    destruct (np_mean_axis0_spec m Hwf Hn) as (v' & Hv' & Hlen & Hmean).
    assert (v' = v) as -> by congruence.
    exists v. split_and!; [congruence | | done | done].
    intros i Hi. apply Hmean. lia.
  - split_and!.
    + rewrite Hfc; [done |]. intros k _ [m Hk] E.
      apply centroid_path_inj in E as ->. congruence.
    + rewrite Hfv; [done |]. intros k _ [m Hk] E.
      apply visual_path_inj in E as ->. congruence.
    + by apply Herr.
Qed.

(** X12: the reshape stops the run.  When the first matrix that is not of
    3072 columns is reached, its centroid has already been saved; the run
    ends there with [ValueError], without a preview for this class and
    without touching the centroids of the classes that come after it. *)
Theorem centroid_run_bad_shape (mats : gmap string matrix) (st : state)
    (l1 l2 : list string) (c : string) (m : matrix) :
  CLASSES = l1 ++ c :: l2 →
  (∀ k mk, k ∈ l1 → mats !! matrix_path k = Some mk →
     wf_matrix mk ∧ 1 ≤ length (rows mk) ∧ ncols mk = 3072) →
  mats !! matrix_path c = Some m →
  wf_matrix m → 1 ≤ length (rows m) → ncols m ≠ 3072 →
  ∃ st' v, calculate_and_visualize_centroids mats st = (st', Some ValueError) ∧
    np_mean_axis0 m = Ok v ∧
    centroids st' !! centroid_path c = Some (F64 v) ∧
    visuals st' !! visual_path c = visuals st !! visual_path c ∧
    ∀ k, k ∈ l2 →
      centroids st' !! centroid_path k = centroids st !! centroid_path k ∧
      visuals st' !! visual_path k = visuals st !! visual_path k.
Proof.
  intros Hcl Hgood Hm Hwf Hn Hd.
  pose proof centroid_CLASSES_NoDup as Hnd. rewrite Hcl in Hnd.
  apply NoDup_app in Hnd as (Hnd1 & Hdisj & Hnd2).
  apply NoDup_cons in Hnd2 as [Hc2 _].
  unfold calculate_and_visualize_centroids. rewrite Hcl, for_each_app.
  destruct (for_each_centroid_run mats l1
              (print "--- Calculating Centroids (Mean Vectors) ---" st) Hnd1 Hgood)
    as (s1 & Hrun & Hfc & Hfv & _).
  rewrite Hrun. cbn [for_each].
  destruct (np_mean_axis0_spec m Hwf Hn) as (v & Hv & Hlen & _).
  rewrite (centroid_step_bad_shape mats s1 c m v Hm Hv) by congruence.
  eexists _, v. split; [done |]. split; [done |]. cbn [centroids visuals].
  split_and!.
  - apply lookup_insert_eq.
  - rewrite Hfv; [done |]. intros k Hk _ E. apply visual_path_inj in E as ->.
    apply (Hdisj _ Hk). by left.
  - intros k Hk. split.
    + rewrite lookup_insert_ne, Hfc; [done | |].
      * intros k' Hk' _ E. apply centroid_path_inj in E as ->.
        apply (Hdisj _ Hk'). by right.
      * intros E. apply centroid_path_inj in E as ->. done.
    + rewrite Hfv; [done |]. intros k' Hk' _ E. apply visual_path_inj in E as ->.
      apply (Hdisj _ Hk'). by right.
Qed.

End centroid_more.


(** * The preview image *)

Section centroid_preview.
Import Numpy Centroid.
Local Open Scope R_scope.

Lemma Rsum_bounds (a b : R) (l : list R) :
  Forall (λ x, a <= x <= b) l →
  INR (length l) * a <= Rsum l <= INR (length l) * b.
Proof.
  induction 1 as [| x l Hx _ IH].
  - cbn. lra.
  - rewrite Rsum_cons. cbn [length]. rewrite S_INR. lra.
Qed.

Lemma Rsum_const (a : R) (l : list R) :
  Forall (λ x, x = a) l → Rsum l = INR (length l) * a.
Proof.
  induction 1 as [| x l Hx _ IH].
  - cbn. lra.
  - rewrite Rsum_cons. cbn [length]. rewrite S_INR. lra.
Qed.

Lemma Int_part_bounds (x : R) : IZR (Int_part x) <= x < IZR (Int_part x) + 1.
Proof. destruct (base_Int_part x). lra. Qed.

Lemma Int_part_range (x : R) (a b : Z) :
  IZR a <= x <= IZR b → (a ≤ Int_part x ≤ b)%Z.
Proof.
  intros [Ha Hb]. pose proof (Int_part_bounds x) as [H1 H2]. split.
  - apply Z.lt_succ_r, lt_IZR. rewrite succ_IZR. lra.
  - apply le_IZR. lra.
Qed.

Lemma Int_part_IZR (z : Z) : Int_part (IZR z) = z.
Proof.
  pose proof (Int_part_bounds (IZR z)) as [H1 H2].
  apply le_IZR in H1. rewrite <- plus_IZR in H2. apply lt_IZR in H2. lia.
Qed.

Lemma astype_uint8_floor (x : R) :
  0 <= x <= 255 → astype_uint8 x = Int_part x.
Proof.
  intros Hx. unfold astype_uint8, wrap8. rewrite decide_True by lra.
  apply Z.mod_small. pose proof (Int_part_range x 0 255 Hx). lia.
Qed.

Lemma column_mean_bounds (m : matrix) (i : nat) :
  wf_matrix m → (1 ≤ length (rows m))%nat → (i < ncols m)%nat →
  Forall (Forall (λ z, 0 ≤ z ≤ 255)%Z) (rows m) →
  0 <= column_mean m i <= 255.
Proof.
  intros Hwf Hn Hi Hpix. unfold column_mean.
  assert (Forall (λ x, 0 <= x <= 255) (column m i)) as Hcol.
  { unfold column. apply Forall_fmap, Forall_forall. intros r Hr. cbn.
    unfold wf_matrix in Hwf. rewrite Forall_forall in Hwf, Hpix.
    specialize (Hwf r Hr). specialize (Hpix r Hr). cbn in Hwf.
    destruct (lookup_lt_is_Some_2 r i) as [z Hz]; [lia |].
    rewrite nth_lookup, Hz. cbn.
    rewrite Forall_forall in Hpix.
    destruct (Hpix z) as [H1 H2]; [by eapply list_elem_of_lookup_2 |].
    apply IZR_le in H1, H2. lra. }
  apply Rsum_bounds in Hcol.
  assert (length (column m i) = length (rows m)) as Hlen
    by (unfold column; apply length_fmap).
  rewrite Hlen in Hcol.
  assert (0 < INR (length (rows m))) as Hpos by (apply lt_0_INR; lia).
  remember (INR (length (rows m))) as n eqn:En. clear En.
  remember (Rsum (column m i)) as s eqn:Es. clear Es.
  pose proof (Rinv_0_lt_compat n Hpos) as Hinv.
  assert (n * / n = 1) as Hone by (apply Rinv_r; lra).
  unfold Rdiv. remember (/ n) as k eqn:Ek. clear Ek. split; nra.
Qed.

(** X13: for a matrix of pixel values between 0 and 255 every component of
    the centroid lies between 0 and 255, so the cast to [uint8] of the
    preview never wraps around: the preview pixel is the integer part of
    the mean, and where all images of the class agree on a pixel value the
    preview shows exactly that value. *)
Theorem centroid_preview_pixels (m : matrix) (v : list R) (i : nat) :
  wf_matrix m → (1 ≤ length (rows m))%nat →
  Forall (Forall (λ z, 0 ≤ z ≤ 255)%Z) (rows m) →
  np_mean_axis0 m = Ok v → (i < ncols m)%nat →
  ∃ x, v !! i = Some x ∧ x = column_mean m i ∧
       0 <= x <= 255 ∧
       (astype_uint8 <$> v) !! i = Some (Int_part x) ∧
       (0 ≤ Int_part x ≤ 255)%Z ∧
       IZR (Int_part x) <= x < IZR (Int_part x) + 1 ∧
       ∀ z, (∀ r, r ∈ rows m → r !! i = Some z) → Int_part x = z.
Proof.
  intros Hwf Hn Hpix Hv Hi.
  destruct (np_mean_axis0_spec m Hwf Hn) as (v' & Hv' & Hlen & Hmean).
  assert (v' = v) as -> by congruence.
  pose proof (column_mean_bounds m i Hwf Hn Hi Hpix) as Hb.
  exists (column_mean m i). split_and!.
  - by apply Hmean.
  - done.
  - lra.
  - lra.
  - rewrite list_lookup_fmap, (Hmean i Hi). cbn. f_equal.
    by apply astype_uint8_floor.
  - apply (Int_part_range _ 0 255 Hb).
  - apply (Int_part_range _ 0 255 Hb).
  - apply Int_part_bounds.
  - apply Int_part_bounds.
  - intros z Hz. etrans; [| apply (Int_part_IZR z)]. f_equal.
    unfold column_mean. rewrite (Rsum_const (IZR z)).
    + unfold column. rewrite length_fmap. field.
      apply not_0_INR. lia.
    + unfold column. apply Forall_fmap, Forall_forall. intros r Hr. cbn.
      by rewrite nth_lookup, (Hz r Hr).
Qed.

End centroid_preview.


(** * More on the dataset splitter *)

Section split_more.
Import Split.

(** ** The filter on the file names *)

Lemma ascii_lower_idemp (c : Ascii.ascii) : ascii_lower (ascii_lower c) = ascii_lower c.
Proof. destruct c as [[] [] [] [] [] [] [] []]; reflexivity. Qed.

Lemma lower_idemp (s : string) : lower (lower s) = lower s.
Proof.
  induction s as [| c s IH]; [done |]. cbn [lower].
  by rewrite ascii_lower_idemp, IH.
Qed.

Lemma is_image_spec (f : string) :
  is_image f = true
  ↔ ∃ stem ext, ext ∈ [".png"; ".jpg"; ".jpeg"] ∧ lower f = stem +:+ ext.
Proof.
  unfold is_image, endswith_any. rewrite existsb_exists. split.
  - intros (ext & Hext & [stem Hf]%endswith_spec).
    exists stem, ext. split; [by apply list_elem_of_In | done].
  - intros (stem & ext & Hext & Hf). exists ext.
    split; [by apply list_elem_of_In |]. apply endswith_spec. by exists stem.
Qed.

Lemma elem_of_image_files (dir : gmap string content) (f : string) :
  f ∈ image_files dir ↔ is_Some (dir !! f) ∧ is_image f = true.
Proof.
  unfold image_files, os_listdir. rewrite list_elem_of_filter, list_elem_of_fmap.
  split.
  - intros [Him ([f' bytes] & -> & Hf)]. apply elem_of_map_to_list in Hf.
    split; [by exists bytes | done].
  - intros [[bytes Hf] Him]. split; [done |]. exists (f, bytes).
    split; [done |]. by apply elem_of_map_to_list.
Qed.

(** X14: the list of images of a folder holds exactly the names of its
    files whose lower-cased form ends with .png, .jpg or .jpeg, each name
    once; upper and lower case in the name make no difference. *)
Theorem image_files_filter (dir : gmap string content) (f : string) :
  (f ∈ image_files dir
   ↔ is_Some (dir !! f) ∧
     ∃ stem ext, ext ∈ [".png"; ".jpg"; ".jpeg"] ∧ lower f = stem +:+ ext) ∧
  is_image (lower f) = is_image f ∧
  NoDup (image_files dir).
Proof.
  split_and!.
  - by rewrite elem_of_image_files, is_image_spec.
  - unfold is_image. by rewrite lower_idemp.
  - apply image_files_NoDup.
Qed.

(** ** Nothing is removed *)







(** ** The destination folders after the run *)









End split_more.


(** * The shuffle reaches every order *)

Section shuffle_more.
Import Split.

Lemma length_swap {A} (i j : nat) (x : list A) : length (swap i j x) = length x.
Proof.
  unfold swap. destruct (x !! i); [| done]. destruct (x !! j); [| done].
  by rewrite !length_insert.
Qed.

Lemma swap_app {A} (i j : nat) (a t : list A) :
  i < length a → j < length a → swap i j (a ++ t) = swap i j a ++ t.
Proof.
  intros Hi Hj. unfold swap. rewrite !lookup_app_l by done.
  destruct (lookup_lt_is_Some_2 a i Hi) as [xi ->].
  destruct (lookup_lt_is_Some_2 a j Hj) as [xj ->].
  rewrite insert_app_l by done. by rewrite insert_app_l by by rewrite length_insert.
Qed.

Lemma randbelow_lt (n : nat) (g : rng) : 0 < n → (randbelow n g).1 < n.
Proof.
  intros Hn. destruct g as [| r g]; cbn; [done |].
  apply Nat.mod_upper_bound. lia.
Qed.

Lemma length_shuffle_from {A} (n : nat) (x : list A) (g : rng) :
  length (shuffle_from n x g).1 = length x.
Proof. by rewrite shuffle_from_perm. Qed.

(** The shuffle of the first [n + 1] positions leaves the rest in place. *)
Lemma shuffle_from_app {A} (n : nat) (a t : list A) (g : rng) :
  n < length a →
  shuffle_from n (a ++ t) g = ((shuffle_from n a g).1 ++ t, (shuffle_from n a g).2).
Proof.
  revert a g. induction n as [| n IH]; intros a g Hn; [done |].
  cbn [shuffle_from]. pose proof (randbelow_lt (S n + 1) g) as Hj.
  destruct (randbelow (S n + 1) g) as [j g']. cbn [fst] in Hj.
  rewrite swap_app by lia. apply IH. rewrite length_swap. lia.
Qed.

Lemma last_split {A} (l : list A) (k : nat) (b : A) :
  length l = S k → l !! k = Some b → l = take k l ++ [b].
Proof.
  intros Hlen Hb. rewrite <- (take_drop k l) at 1. f_equal.
  rewrite (drop_S l b k Hb). f_equal. apply drop_ge. lia.
Qed.

Lemma swap_lookup_l {A} (i j : nat) (x : list A) (b : A) :
  i < length x → x !! j = Some b → swap i j x !! i = Some b.
Proof.
  intros Hi Hj. unfold swap.
  destruct (lookup_lt_is_Some_2 x i Hi) as [a Ha]. rewrite Ha, Hj.
  destruct (decide (i = j)) as [-> | Hne].
  - rewrite list_lookup_insert_eq by by rewrite length_insert. congruence.
  - rewrite list_lookup_insert_ne by done. by apply list_lookup_insert_eq.
Qed.

Lemma shuffle_from_any_order {A} (n : nat) (x y : list A) :
  length x = S n → x ≡ₚ y →
  ∃ g, length g = n ∧ shuffle_from n x g = (y, []).
Proof.
  revert x y. induction n as [| n IH]; intros x y Hlen Hperm.
  - exists []. split; [done |]. cbn.
    destruct x as [| a [| ? ?]]; try done.
    by apply Permutation_length_1_inv in Hperm as ->.
  - assert (length y = S (S n)) as Hlen' by by rewrite <- Hperm.
    destruct (lookup_lt_is_Some_2 y (S n)) as [b Hb]; [lia |].
    assert (b ∈ x) as Hin by (rewrite Hperm; by eapply list_elem_of_lookup_2).
    apply list_elem_of_lookup in Hin as [j Hj].
    pose proof (lookup_lt_Some _ _ _ Hj) as Hjlt.
    pose proof (last_split y (S n) b Hlen' Hb) as Hy.
    assert (swap (S n) j x !! S n = Some b) as Hsw
      by (apply swap_lookup_l; [lia | done]).
    pose proof (last_split (swap (S n) j x) (S n) b) as Hx.
    rewrite length_swap in Hx. specialize (Hx Hlen Hsw).
    assert (length (take (S n) (swap (S n) j x)) = S n) as Hlx
      by (rewrite length_take, length_swap; lia).
    remember (take (S n) (swap (S n) j x)) as x' eqn:Ex'. clear Ex'.
    remember (take (S n) y) as y' eqn:Ey'. clear Ey'.
    destruct (IH x' y' Hlx) as (g & Hg & Hrun).
    + apply (Permutation_app_inv_r [b]). rewrite <- Hx, <- Hy.
      by rewrite swap_perm.
    + exists (j :: g). split; [cbn; by rewrite Hg |].
      cbn [shuffle_from randbelow]. rewrite Nat.mod_small by lia.
      rewrite Hx, shuffle_from_app, Hrun by lia. by rewrite Hy.
Qed.

(** X18: the shuffle can produce every order of the list: for each
    rearrangement there is a sequence of [len - 1] draws that yields it and
    is used up by it.  Hence every choice of min(5, n) files can become
    the test set. *)
Theorem random_shuffle_any_order (files shuffled : list string) :
  files ≡ₚ shuffled →
  ∃ g, length g = length files - 1 ∧
       random_shuffle files g = (shuffled, []) ∧
       split_files files g
       = (take SPLIT_COUNT shuffled, drop SPLIT_COUNT shuffled, []).
Proof.
  intros Hperm. unfold split_files, random_shuffle.
  destruct files as [| a files].
  - apply Permutation_nil in Hperm as ->. by exists [].
  - destruct (shuffle_from_any_order (length files) (a :: files) shuffled)
      as (g & Hg & Hrun); [done | done |].
    exists g.
    replace (length (a :: files) - 1) with (length files) by (cbn; lia).
    by rewrite Hrun.
Qed.

End shuffle_more.


(** * The further properties on the examples *)

Section evaluate_more_examples.
Import Numpy Distance Evaluate EvaluateSpec Examples.
Local Open Scope R_scope.



Lemma two_tests_finishes : ∃ rep, run_evaluation two_tests = Finished rep.
Proof.
  rewrite (run_evaluation_spec two_tests loaded_centroids load_centroid_store).
  destruct (rows_of_total two_tests loaded_centroids two_tests_well_shaped) as [rs Hrs].
  rewrite Hrs. destruct rs as [| r rs]; [| by eexists].
  by apply rows_of_nil_iff in Hrs.
Qed.

Lemma process_file_total cs t entry x rs :
  t ∈ CLASSES → entry.2 = Npy x →
  (∀ c, c ∈ CLASSES → ∃ mu, cs !! c = Some mu ∧ len x = len mu) →
  is_ok (process_file cs t entry (state_of rs)).
Proof.
  intros Ht Hx Hcs. rewrite process_file_spec by done.
  destruct (make_row_total cs t entry x Hx Hcs) as [r ->]. by eexists.
Qed.

Lemma loaded_centroids_shapes (a b : Z) c :
  c ∈ CLASSES → ∃ mu, loaded_centroids !! c = Some mu ∧ len (U8 [a; b]) = len mu.
Proof. intros [-> | [-> | ->]]%elem_of_CLASSES; eexists; split; reflexivity. Qed.



Lemma whole_pizza_in_CLASSES : "whole_pizza" ∈ CLASSES.
Proof. apply elem_of_CLASSES. auto. Qed.


Lemma accuracy_summary_witness :
  ∃ rep, run_evaluation two_tests = Finished rep ∧ summary_total rep = 2%nat.
Proof.
  destruct two_tests_finishes as [rep Hrep]. exists rep. split; [done |].
  destruct (accuracy_summary two_tests rep Hrep) as (_ & _ & Htotal & _).
  by rewrite Htotal, samples_two_tests.
Defined.

Lemma detailed_report_lines_witness :
  ∃ rep, run_evaluation two_tests = Finished rep ∧
         Image <$> detailed_predictions rep
         = ["test_pizza_slice_0.npy"; "test_pizza_slice_1.npy"].
Proof.
  destruct two_tests_finishes as [rep Hrep]. exists rep. split; [done |].
  pose proof (detailed_report_lines two_tests rep Hrep) as Hlines.
  rewrite samples_two_tests in Hlines.
  apply Forall2_cons_inv_l in Hlines as (r1 & l1 & (H1 & _) & Hlines & ->).
  apply Forall2_cons_inv_l in Hlines as (r2 & l2 & (H2 & _) & Hlines & ->).
  apply Forall2_nil_inv_l in Hlines as ->.
  cbn [fmap list_fmap]. by rewrite H1, H2.
Defined.

Lemma run_evaluation_inputs_witness :
  run_evaluation two_tests
  = run_evaluation
      (Env centroid_store
         {[ "processed_data/test/pizza_slice" :=
              [("test_pizza_slice_0.npy", Npy (U8 [0; 0]%Z));
               ("test_pizza_slice_1.npy", Npy (U8 [3; 4]%Z))];
            "processed_data/test/other" := [("x.npy", Other)] ]}).
Proof.
  apply run_evaluation_inputs.
  - done.
  - intros c [-> | [-> | ->]]%elem_of_CLASSES; reflexivity.
Defined.



Lemma zero_vector_cosine_prediction_witness :
  ∃ st' r,
    process_file loaded_centroids "whole_pizza" ("t.npy", Npy (U8 [0; 0]%Z)) (state_of [])
    = Ok st' ∧
    results st' = [r] ∧ Pred_C r = "pizza_slice".
Proof.
  destruct (process_file_total loaded_centroids "whole_pizza"
              ("t.npy", Npy (U8 [0; 0]%Z)) (U8 [0; 0]%Z) []
              whole_pizza_in_CLASSES eq_refl (loaded_centroids_shapes 0 0))
    as [st' Hst'].
  destruct (zero_vector_cosine_prediction loaded_centroids "whole_pizza"
              ("t.npy", Npy (U8 [0; 0]%Z)) (U8 [0; 0]%Z) [] st'
              whole_pizza_in_CLASSES eq_refl)
    as (r & Hres & Hpred & _); [by repeat constructor | done |].
  by exists st', r.
Defined.

End evaluate_more_examples.

Section centroid_more_examples.
Import Numpy Centroid Examples.

Lemma matrix_path_inj c k : matrix_path c = matrix_path k → c = k.
Proof.
  unfold matrix_path, os_path_join. intros E.
  do 3 apply string_app_inv_l in E. by apply string_app_inv_r in E.
Qed.

Lemma flat_matrices_good c m :
  c ∈ CLASSES → flat_matrices !! matrix_path c = Some m →
  wf_matrix m ∧ 1 ≤ length (rows m) ∧ ncols m = 3072.
Proof.
  intros _. unfold flat_matrices. intros [_ <-]%lookup_singleton_Some. split_and!.
  - repeat constructor; apply length_replicate.
  - cbn. lia.
  - done.
Qed.

Lemma centroid_run_completes_witness :
  ∃ st' v, calculate_and_visualize_centroids flat_matrices (State ∅ ∅ []) = (st', None) ∧
           centroids st' !! centroid_path "whole_pizza" = Some (F64 v) ∧
           length v = 3072 ∧
           centroids st' !! centroid_path "pizza_box" = None.
Proof.
  destruct (centroid_run_completes flat_matrices (State ∅ ∅ []) flat_matrices_good)
    as (st' & Hrun & Hc).
  assert ("whole_pizza" ∈ CLASSES) as Hw by (unfold CLASSES; rewrite !elem_of_cons; auto).
  assert ("pizza_box" ∈ CLASSES) as Hb by (unfold CLASSES; rewrite !elem_of_cons; auto).
  apply Hc in Hw, Hb. unfold flat_matrices in Hw, Hb.
  rewrite lookup_singleton_eq in Hw.
  rewrite lookup_singleton_ne in Hb by (intros E%matrix_path_inj; done).
  destruct Hw as (v & Hlen & _ & Hv & _). destruct Hb as (Hb & _).
  exists st', v. by rewrite Hb.
Defined.

Lemma centroid_run_bad_shape_witness :
  ∃ st', calculate_and_visualize_centroids narrow_matrices (State ∅ ∅ [])
         = (st', Some ValueError) ∧
         is_Some (centroids st' !! centroid_path "whole_pizza") ∧
         visuals st' !! visual_path "whole_pizza" = None ∧
         centroids st' !! centroid_path "pizza_box" = None.
Proof.
  destruct (centroid_run_bad_shape narrow_matrices (State ∅ ∅ [])
              ["pizza_slice"] ["pizza_box"] "whole_pizza"
              (Matrix 2 [[0; 2]; [2; 4]]%Z))
    as (st' & v & Hrun & _ & Hv & Hvis & Hlater).
  - done.
  - intros k mk ->%list_elem_of_singleton. unfold narrow_matrices.
    intros [E _]%lookup_singleton_Some. by apply matrix_path_inj in E.
  - apply lookup_singleton_eq.
  - repeat constructor.
  - cbn. lia.
  - done.
  - exists st'. destruct (Hlater "pizza_box") as [Hb _]; [by left |].
    rewrite Hv, Hvis, Hb. split_and!; [done | by eexists | done | done].
Defined.

Lemma centroid_preview_pixels_witness :
  ∃ v x, np_mean_axis0 (Matrix 2 [[0; 2]; [2; 4]]%Z) = Ok v ∧
         v !! 1 = Some x ∧ (0 <= x <= 255)%R ∧
         (astype_uint8 <$> v) !! 1 = Some (Int_part x).
Proof.
  destruct (np_mean_axis0_spec (Matrix 2 [[0; 2]; [2; 4]]%Z)) as (v & Hv & _);
    [repeat constructor | cbn; lia |].
  destruct (centroid_preview_pixels (Matrix 2 [[0; 2]; [2; 4]]%Z) v 1)
    as (x & Hx & _ & Hb & Hp & _).
  - repeat constructor.
  - cbn. lia.
  - repeat constructor; lia.
  - done.
  - cbn. lia.
  - by exists v, x.
Defined.

End centroid_more_examples.

Section split_more_examples.
Import Split Examples.






Lemma random_shuffle_any_order_witness :
  ∃ g, random_shuffle ["a.png"; "b.png"] g = (["b.png"; "a.png"], []).
Proof.
  destruct (random_shuffle_any_order ["a.png"; "b.png"] ["b.png"; "a.png"])
    as (g & _ & Hg & _).
  - apply Permutation_swap.
  - by exists g.
Defined.

End split_more_examples.
